(** * Rolling upgrade of the PostgreSQL Kubernetes charm

    A shallow embedding of [src/upgrade.py] (class [PostgreSQLUpgrade]) and
    the properties of its event handlers.

    The charm object, the Patroni client, the StatefulSet held by the
    Kubernetes API server, the upgrade peer relation and the event being
    handled are gathered into one record, [World].  A method of the class is
    a computation in a state-and-exception monad over [World]: a Python
    exception that leaves a method keeps every effect made before it. *)

From stdpp Require Import base strings pretty list gmap.
From Stdlib Require Import ZArith Lia Ascii.

Local Open Scope Z_scope.
Local Open Scope string_scope.

(** ** Data model *)

(** Logging.  [logger.exception] logs at level ERROR with the traceback
    attached.  A message is kept rendered, except for the one f-string that
    interpolates a Python list, which is kept as prefix and list. *)
Inductive level := DEBUG | INFO | ERROR.

Inductive message :=
  | Msg (s : string)
  | MsgList (pre : string) (l : list string).

Record log_record := LogRecord {
  lvl : level;
  exc_info : bool;
  msg : message
}.

(** The exceptions that the module raises or lets through.
    [ClusterNotReadyError] carries its two positional arguments. *)
Inductive exn :=
  | ApiError
  | SwitchoverFailedError (reason : string)
  | ClusterNotReadyError (message cause : string)
  | AttributeError.

(** [self.charm._patroni]: what the member reports, what the next
    [switchover] call will answer ([Some e]: it raises
    [SwitchoverFailedError] whose [str] is [e]), and the switchover requests
    made so far, each with its candidate, oldest first. *)
Record Patroni := mkPatroni {
  member_started : bool;
  primary : string;
  sync_standby_names : list string;
  switchover_error : option string;
  switchover_calls : list (option string)
}.

(** The StatefulSet of the application as seen through lightkube.  Every
    request consumes one entry of [api_faults]; [true] makes the request
    raise [ApiError], and a request past the end of the list succeeds.
    [requests] records the requests made, oldest first. *)
Inductive request :=
  | Get
  | Patch (partition : Z).

Record StatefulSet := mkStatefulSet {
  partition : Z;
  api_faults : list bool;
  requests : list request
}.

(** The upgrade peer relation: the data bag of this unit and the data bag of
    the application. *)
Record Relation := mkRelation {
  unit_data : gmap string string;
  app_data : gmap string string
}.

(** What the handler did to the event it was given. *)
Record Event := mkEvent {
  deferred : bool;
  results : option (list (string * string));
  failed : option string
}.

Record World := mkWorld {
  app_name : string;
  unit_name : string;
  planned_units : Z;
  is_cluster_initialised : bool;
  is_leader : bool;
  patroni : Patroni;
  stateful_set : StatefulSet;
  peer_relation : option Relation;
  event : Event;
  log : list log_record;
  config_updates : nat
}.

(** Field updates. *)
Definition with_patroni (p : Patroni) (w : World) : World :=
  mkWorld (app_name w) (unit_name w) (planned_units w)
    (is_cluster_initialised w) (is_leader w) p (stateful_set w)
    (peer_relation w) (event w) (log w) (config_updates w).

Definition with_stateful_set (s : StatefulSet) (w : World) : World :=
  mkWorld (app_name w) (unit_name w) (planned_units w)
    (is_cluster_initialised w) (is_leader w) (patroni w) s
    (peer_relation w) (event w) (log w) (config_updates w).

Definition with_peer_relation (r : option Relation) (w : World) : World :=
  mkWorld (app_name w) (unit_name w) (planned_units w)
    (is_cluster_initialised w) (is_leader w) (patroni w) (stateful_set w)
    r (event w) (log w) (config_updates w).

Definition with_event (e : Event) (w : World) : World :=
  mkWorld (app_name w) (unit_name w) (planned_units w)
    (is_cluster_initialised w) (is_leader w) (patroni w) (stateful_set w)
    (peer_relation w) e (log w) (config_updates w).

Definition with_log (l : list log_record) (w : World) : World :=
  mkWorld (app_name w) (unit_name w) (planned_units w)
    (is_cluster_initialised w) (is_leader w) (patroni w) (stateful_set w)
    (peer_relation w) (event w) l (config_updates w).

Definition with_config_updates (n : nat) (w : World) : World :=
  mkWorld (app_name w) (unit_name w) (planned_units w)
    (is_cluster_initialised w) (is_leader w) (patroni w) (stateful_set w)
    (peer_relation w) (event w) (log w) n.

(** ** The monad of methods *)

Inductive outcome (A : Type) :=
  | Returns (a : A)
  | Raises (e : exn).
Arguments Returns {A} a.
Arguments Raises {A} e.

Definition M (A : Type) : Type := World -> outcome A * World.

Definition ret {A} (a : A) : M A := fun w => (Returns a, w).

Definition raise {A} (e : exn) : M A := fun w => (Raises e, w).

Definition bind {A B} (m : M A) (k : A -> M B) : M B :=
  fun w =>
    match m w with
    | (Returns a, w') => k a w'
    | (Raises e, w') => (Raises e, w')
    end.

(** [try: body except E as e: handler].  [catches] selects the exceptions
    of class [E] and gives the handler what it reads from [e]. *)
Definition try_except {A B} (body : M A) (catches : exn -> option B)
    (handler : B -> M A) : M A :=
  fun w =>
    match body w with
    | (Returns a, w') => (Returns a, w')
    | (Raises e, w') =>
        match catches e with
        | Some b => handler b w'
        | None => (Raises e, w')
        end
    end.

Definition get {A} (f : World -> A) : M A := fun w => (Returns (f w), w).

Definition modify (f : World -> World) : M unit := fun w => (Returns tt, f w).

Notation "x <- m ;; k" := (bind m (fun x => k))
  (at level 100, m at next level, right associativity).
Notation "m ;; k" := (bind m (fun _ => k))
  (at level 100, right associativity).

(** [except ApiError:] *)
Definition as_ApiError (e : exn) : option unit :=
  match e with ApiError => Some tt | _ => None end.

(** [except SwitchoverFailedError as e:], the handler reads [str(e)]. *)
Definition as_SwitchoverFailedError (e : exn) : option string :=
  match e with SwitchoverFailedError reason => Some reason | _ => None end.

(** [str] of a Python [int]. *)
Definition str_int (z : Z) : string := pretty z.

(** ** Collaborators *)

Definition logger (l : level) (exc : bool) (m : message) : M unit :=
  modify (fun w => with_log (log w ++ [LogRecord l exc m]) w).

Definition logger_debug := logger DEBUG false.
Definition logger_info := logger INFO false.
Definition logger_error := logger ERROR false.
Definition logger_exception := logger ERROR true.

(** [self.charm._patroni.get_primary(unit_name_pattern=True)] *)
Definition get_primary : M string := get (fun w => primary (patroni w)).

(** [self.charm._patroni.get_sync_standby_names()] *)
Definition get_sync_standby_names : M (list string) :=
  get (fun w => sync_standby_names (patroni w)).

(** [self.charm._patroni.switchover(candidate)].  The request is recorded;
    the topology that results from a handover belongs to the replication
    manager and is not read again by this module. *)
Definition switchover (candidate : option string) : M unit :=
  fun w =>
    let p := patroni w in
    let w' := with_patroni
                (mkPatroni (member_started p) (primary p)
                   (sync_standby_names p) (switchover_error p)
                   (switchover_calls p ++ [candidate])) w in
    match switchover_error p with
    | Some reason => (Raises (SwitchoverFailedError reason), w')
    | None => (Returns tt, w')
    end.

(** One request to the Kubernetes API about the StatefulSet. *)
Definition api_request (r : request) : M unit :=
  fun w =>
    let s := stateful_set w in
    let w' := with_stateful_set
                (mkStatefulSet (partition s) (tail (api_faults s))
                   (requests s ++ [r])) w in
    match api_faults s with
    | true :: _ => (Raises ApiError, w')
    | _ => (Returns tt, w')
    end.

Definition store_partition (p : Z) (w : World) : World :=
  let s := stateful_set w in
  with_stateful_set (mkStatefulSet p (api_faults s) (requests s)) w.

Definition event_defer : M unit :=
  modify (fun w =>
    with_event (mkEvent true (results (event w)) (failed (event w))) w).

Definition event_set_results (r : list (string * string)) : M unit :=
  modify (fun w =>
    with_event (mkEvent (deferred (event w)) (Some r) (failed (event w))) w).

Definition event_fail (m : string) : M unit :=
  modify (fun w =>
    with_event (mkEvent (deferred (event w)) (results (event w)) (Some m)) w).

(** [self.peer_relation.data[self.charm.unit].update({k: v})] *)
Definition update_unit_data (k v : string) (r : Relation) : Relation :=
  mkRelation (<[k := v]> (unit_data r)) (app_data r).

(** [self.peer_relation.data[self.charm.app].update({k: v})] *)
Definition update_app_data (k v : string) (r : Relation) : Relation :=
  mkRelation (unit_data r) (<[k := v]> (app_data r)).

(** Modelled from the spec: [set_unit_completed] is inherited from the
    [DataUpgrade] base class, which is not among the sources.  The spec has
    it "mark this unit's state completed"; the state is the ["state"] key of
    this unit's bag in the peer relation, the key that
    [_postgresql_on_pebble_ready] reads.  This is the write of the state
    alone; the handler that the spec has fire when the state reaches
    "completed" is added by [set_unit_completed_and_emit] below. *)
Definition set_unit_completed : M unit :=
  modify (fun w =>
    with_peer_relation (update_unit_data "state" "completed" <$> peer_relation w) w).

(** Modelled from the spec: [set_unit_failed] is inherited from the
    [DataUpgrade] base class, which is not among the sources.  The spec has
    it "mark this unit failed". *)
Definition set_unit_failed : M unit :=
  modify (fun w =>
    with_peer_relation (update_unit_data "state" "failed" <$> peer_relation w) w).

(** [self.charm.update_config()]: the renderer is outside this module, its
    invocations are counted. *)
Definition update_config : M unit :=
  modify (fun w => with_config_updates (S (config_updates w)) w).

(** [f"{self.charm.app.name}/0"] *)
Definition unit_zero_name_of (w : World) : string := app_name w +:+ "/0".

(** [f"{self.charm.app.name}/{self.charm.app.planned_units() - 1}"] *)
Definition last_unit_name_of (w : World) : string :=
  app_name w +:+ "/" +:+ str_int (planned_units w - 1).

(** ** [PostgreSQLUpgrade] *)

Definition _get_rolling_update_partition : M Z :=
  api_request Get ;;
  get (fun w => partition (stateful_set w)).

Definition _set_rolling_update_partition (partition : Z) : M unit :=
  logger_info (Msg ("partition: " +:+ str_int partition)) ;;
  api_request (Patch partition) ;;
  modify (store_partition partition).

Definition _set_first_rolling_update_partition : M unit :=
  planned <- get planned_units ;;
  _set_rolling_update_partition (planned - 1).

Definition log_rollback_instructions : M unit :=
  logger_info
    (Msg "Run `juju refresh --revision <previous-revision> postgresql-k8s` to rollback") ;;
  logger_info
    (Msg "and `juju run-action postgresql-k8s/leader resume-upgrade` to finish the rollback").

Definition _set_min_ordinal_sync_standbys : M unit :=
  initialised <- get is_cluster_initialised ;;
  leader <- get is_leader ;;
  if negb initialised || negb leader then ret tt
  else
    primary_unit_name <- get_primary ;;
    unit_zero_name <- get unit_zero_name_of ;;
    planned <- get planned_units ;;
    if (2 <? planned)%Z && bool_decide (primary_unit_name ≠ unit_zero_name) then
      min_ordinal_sync_standbys <- _get_rolling_update_partition ;;
      rel <- get peer_relation ;;
      match rel with
      | None => raise AttributeError
      | Some r =>
          modify (with_peer_relation
            (Some (update_app_data "min-ordinal-sync-standbys"
                     (str_int min_ordinal_sync_standbys) r)))
      end
    else ret tt.

Definition _postgresql_on_pebble_ready : M unit :=
  rel <- get peer_relation ;;
  match rel with
  | None =>
      logger_error (Msg "Deferring on_pebble_ready: no upgrade peer relation yet") ;;
      event_defer
  | Some r =>
      if bool_decide (unit_data r !! "state" ≠ Some "upgrading") then ret tt
      else
        started <- get (fun w => member_started (patroni w)) ;;
        if negb started then
          logger_error (Msg "Deferring on_pebble_ready: Patroni has not started yet") ;;
          event_defer
        else
          primary_unit_name <- get_primary ;;
          logger_error (Msg ("primary_unit_name: " +:+ primary_unit_name)) ;;
          unit_zero_name <- get unit_zero_name_of ;;
          sync_standby_names <- get_sync_standby_names ;;
          logger_error (MsgList "sync_standby_names: " sync_standby_names) ;;
          this_unit <- get unit_name ;;
          if bool_decide (this_unit ≠ unit_zero_name)
             && bool_decide (primary_unit_name ≠ unit_zero_name)
             && bool_decide (0 < length sync_standby_names)%nat
             && bool_decide (sync_standby_names !! 0%nat ≠ Some this_unit)
          then
            _set_min_ordinal_sync_standbys ;;
            logger_error
              (Msg "Deferring on_pebble_ready: this unit is not the only synchronous standby yet") ;;
            event_defer
          else set_unit_completed
  end.

(** The [try] block of [_on_resume_upgrade] either returns from the handler
    ([None]) or falls through with the failure message to report. *)
Definition _on_resume_upgrade : M unit :=
  let fail_message := "Nothing to resume, upgrade stack unset" in
  fallthrough <-
    try_except
      (partition <- _get_rolling_update_partition ;;
       let next_partition := partition - 1 in
       if (0 <=? next_partition)%Z then
         _set_rolling_update_partition next_partition ;;
         event_set_results
           [("message", "Upgrade will resume on unit " +:+ str_int next_partition)] ;;
         ret None
       else ret (Some fail_message))
      as_ApiError
      (fun _ => ret (Some "Cannot set rolling update partition")) ;;
  match fallthrough with
  | None => ret tt
  | Some fail_message => event_fail fail_message
  end.

Definition _on_upgrade_changed : M unit :=
  rel <- get peer_relation ;;
  match rel with
  | None => event_defer
  | Some _ =>
      _set_min_ordinal_sync_standbys ;;
      update_config
  end.

Definition _on_upgrade_finished : M unit :=
  this_unit <- get unit_name ;;
  logger_error (Msg ("finished for " +:+ this_unit)) ;;
  last_unit_name <- get last_unit_name_of ;;
  if bool_decide (this_unit ≠ last_unit_name) then
    try_except
      (logger_debug (Msg "Set rolling update partition to next unit") ;;
       partition <- _get_rolling_update_partition ;;
       let next_partition := partition - 1 in
       if (0 <=? next_partition)%Z then
         _set_rolling_update_partition next_partition
       else ret tt)
      as_ApiError
      (fun _ =>
         logger_exception (Msg "Cannot set rolling update partition") ;;
         set_unit_failed ;;
         log_rollback_instructions)
  else ret tt.

Definition pre_upgrade_check : M unit :=
  initialised <- get is_cluster_initialised ;;
  if negb initialised then
    let message := "cluster has not initialised yet" in
    raise (ClusterNotReadyError message message)
  else
    primary_unit_name <- get_primary ;;
    unit_zero_name <- get unit_zero_name_of ;;
    if bool_decide (primary_unit_name = unit_zero_name) then
      _set_first_rolling_update_partition
    else
      sync_standby_names <- get_sync_standby_names ;;
      if bool_decide (length sync_standby_names = 0%nat) then
        raise (ClusterNotReadyError "invalid number of sync nodes" "no action!")
      else if bool_decide (unit_zero_name ∈ sync_standby_names) then
        try_except
          (switchover (Some unit_zero_name))
          as_SwitchoverFailedError
          (fun e =>
             raise (ClusterNotReadyError e
                      ("try to switchover manually to " +:+ unit_zero_name))) ;;
        _set_first_rolling_update_partition
      else
        last_unit_name <- get last_unit_name_of ;;
        if bool_decide (primary_unit_name = last_unit_name) then
          try_except
            (switchover None)
            as_SwitchoverFailedError
            (fun e =>
               raise (ClusterNotReadyError e
                        "try to manually switchover to any synchronous standby")) ;;
          _set_first_rolling_update_partition
        else _set_first_rolling_update_partition.

(** ** Reasoning support *)

(** The state a computation ends in, and how it ends. *)
Definition final {A} (m : M A) (w : World) : World := snd (m w).
Definition result {A} (m : M A) (w : World) : outcome A := fst (m w).

Definition partition_of (w : World) : Z := partition (stateful_set w).
Definition requests_of (w : World) : list request := requests (stateful_set w).
Definition faults_of (w : World) : list bool := api_faults (stateful_set w).

(** The ["state"] this unit has recorded in the peer relation. *)
Definition unit_state (w : World) : option string :=
  r ← peer_relation w; unit_data r !! "state".

(** The cluster-scope hint in the peer relation. *)
Definition min_ordinal_sync_standbys (w : World) : option string :=
  r ← peer_relation w; app_data r !! "min-ordinal-sync-standbys".

(** Whether the [n]-th request to the API server from now on is refused. *)
Definition request_fails (n : nat) (w : World) : bool :=
  default false (faults_of w !! n).

(** The computation [m] run in [w] does to the StatefulSet what
    [_set_first_rolling_update_partition] does: it asks the API server to
    patch the partition to [planned_units - 1]; when the request is answered
    [m] returns and the partition has that value, when it is refused [m]
    raises [ApiError] and the partition is the one found. *)
Definition sets_first_partition (m : M unit) (w : World) : Prop :=
  requests_of (final m w) = (requests_of w ++ [Patch (planned_units w - 1)])%list /\
  (request_fails 0 w = false ->
   result m w = Returns tt /\ partition_of (final m w) = planned_units w - 1) /\
  (request_fails 0 w = true ->
   result m w = Raises ApiError /\ partition_of (final m w) = partition_of w).

(** The four tests under which [_set_min_ordinal_sync_standbys] goes on to
    read the partition. *)
Definition refresh_due (w : World) : Prop :=
  is_cluster_initialised w = true /\
  is_leader w = true /\
  2 < planned_units w /\
  primary (patroni w) ≠ unit_zero_name_of w.

(** The test of [_postgresql_on_pebble_ready] on the placement of the
    synchronous standby. *)
Definition not_only_sync_standby (w : World) : Prop :=
  unit_name w ≠ unit_zero_name_of w /\
  primary (patroni w) ≠ unit_zero_name_of w /\
  (0 < length (sync_standby_names (patroni w)))%nat /\
  sync_standby_names (patroni w) !! 0%nat ≠ Some (unit_name w).

(** ** Completion and the event it fires *)

(** [_postgresql_on_pebble_ready] with the call of its last line,
    [self.set_unit_completed()], left open. *)
Definition pebble_ready_completing (completion : M unit) : M unit :=
  rel <- get peer_relation ;;
  match rel with
  | None =>
      logger_error (Msg "Deferring on_pebble_ready: no upgrade peer relation yet") ;;
      event_defer
  | Some r =>
      if bool_decide (unit_data r !! "state" ≠ Some "upgrading") then ret tt
      else
        started <- get (fun w => member_started (patroni w)) ;;
        if negb started then
          logger_error (Msg "Deferring on_pebble_ready: Patroni has not started yet") ;;
          event_defer
        else
          primary_unit_name <- get_primary ;;
          logger_error (Msg ("primary_unit_name: " +:+ primary_unit_name)) ;;
          unit_zero_name <- get unit_zero_name_of ;;
          sync_standby_names <- get_sync_standby_names ;;
          logger_error (MsgList "sync_standby_names: " sync_standby_names) ;;
          this_unit <- get unit_name ;;
          if bool_decide (this_unit ≠ unit_zero_name)
             && bool_decide (primary_unit_name ≠ unit_zero_name)
             && bool_decide (0 < length sync_standby_names)%nat
             && bool_decide (sync_standby_names !! 0%nat ≠ Some this_unit)
          then
            _set_min_ordinal_sync_standbys ;;
            logger_error
              (Msg "Deferring on_pebble_ready: this unit is not the only synchronous standby yet") ;;
            event_defer
          else completion
  end.

(** Modelled from the spec: what [set_unit_completed] of the [DataUpgrade]
    base class, which is not among the sources, sets off.  The spec has the
    handler of a finished unit, [_on_upgrade_finished], fire "when a single
    unit's upgrade fully completes (state machine reaches completed)", and
    has the workload-ready signal of a replaced unit advance the partition
    once health and the placement of the synchronous standby are verified:
    the state is written, then the handler runs. *)
Definition set_unit_completed_and_emit : M unit :=
  set_unit_completed ;;
  _on_upgrade_finished.

(** The handler of pebble-ready with the completion that the spec
    describes. *)
Definition on_workload_ready : M unit :=
  pebble_ready_completing set_unit_completed_and_emit.

(** The worlds in which pebble-ready reaches its last line. *)
Definition completes (w : World) : Prop :=
  unit_state w = Some "upgrading" /\
  member_started (patroni w) = true /\
  ~ not_only_sync_standby w.

(** ** [is_no_sync_member] and the builtins it reads with *)

(** [s.split(sep)] for a separator of one character. *)
Fixpoint split (sep : ascii) (s : string) : list string :=
  match s with
  | EmptyString => [EmptyString]
  | String c rest =>
      if bool_decide (c = sep) then EmptyString :: split sep rest
      else match split sep rest with
           | field :: fields => String c field :: fields
           | [] => [String c EmptyString]
           end
  end.

(** The characters that [int] skips around a number: the tabulation, the
    line feed, the vertical tabulation, the form feed, the carriage return
    and the space. *)
Definition is_space (c : ascii) : bool :=
  let n := Ascii.N_of_ascii c in
  ((9 <=? n) && (n <=? 13) || (n =? 32))%N.

(** The value of a decimal digit. *)
Definition digit (c : ascii) : option N :=
  let n := Ascii.N_of_ascii c in
  if ((48 <=? n) && (n <=? 57))%N then Some (n - 48)%N else None.

Fixpoint skip_spaces (s : string) : string :=
  match s with
  | String c rest => if is_space c then skip_spaces rest else s
  | EmptyString => s
  end.

(** The digits of a number, a single underscore allowed between two of
    them, then spaces only.  [after_digit] tells whether the character
    before was a digit. *)
Fixpoint int_digits (acc : N) (after_digit : bool) (s : string) : option N :=
  match s with
  | EmptyString => if after_digit then Some acc else None
  | String c rest =>
      match digit c with
      | Some d => int_digits (acc * 10 + d) true rest
      | None =>
          if bool_decide (c = "_"%char) then
            if after_digit then int_digits acc false rest else None
          else if is_space c then
            if after_digit then
              match skip_spaces rest with
              | EmptyString => Some acc
              | _ => None
              end
            else None
          else None
      end
  end.

(** [int(s)] in base 10 for a string [s] of ASCII characters; [None] stands
    for [ValueError].  Spaces around the number, an optional sign, decimal
    digits with single underscores between them.  The digits and spaces
    outside ASCII that Python reads too do not occur in what the module
    stores and in unit names. *)
Definition int_of_str (s : string) : option Z :=
  match skip_spaces s with
  | String "-" rest => Z.opp <$> (Z.of_N <$> int_digits 0 false rest)
  | String "+" rest => Z.of_N <$> int_digits 0 false rest
  | rest => Z.of_N <$> int_digits 0 false rest
  end.

(** [sep not in s] *)
Fixpoint free_of (sep : ascii) (s : string) : bool :=
  match s with
  | EmptyString => true
  | String c rest => negb (bool_decide (c = sep)) && free_of sep rest
  end.

(** How the evaluation of the property ends when it does not give a
    boolean: with an exception of the module, or with one of the two that
    [int] and the subscript raise. *)
Inductive raised :=
  | Raised (e : exn)
  | ValueError
  | IndexError.

(** The hint in the application bag, [0] when the key is missing. *)
Definition read_hint (r : Relation) : option Z :=
  match app_data r !! "min-ordinal-sync-standbys" with
  | Some text => int_of_str text
  | None => Some 0
  end.

(** The property [is_no_sync_member]: the hint is read first, then the
    ordinal from the name of the unit. *)
Definition is_no_sync_member (w : World) : raised + bool :=
  match peer_relation w with
  | None => inl (Raised AttributeError)
  | Some r =>
      match read_hint r with
      | None => inl ValueError
      | Some min_ordinal_sync_standbys =>
          match split "/" (unit_name w) !! 1%nat with
          | None => inl IndexError
          | Some ordinal =>
              match int_of_str ordinal with
              | None => inl ValueError
              | Some n => inr (n <? min_ordinal_sync_standbys)%Z
              end
          end
      end
  end.

(** ** Event delivery

    [__init__] registers [_on_upgrade_changed], [_postgresql_on_pebble_ready]
    and [_on_resume_upgrade] as observers of three events of the charm. *)
Inductive observed :=
  | upgrade_relation_changed
  | postgresql_pebble_ready
  | resume_upgrade_action
  | upgrade_finished.

(** Modelled from the spec: the observation of [upgrade_finished] is made by
    the [DataUpgrade] base class, which is not among the sources; the spec
    has [_on_upgrade_finished], which overrides the handler of the base
    class, fire when the upgrade of a unit completes. *)
Definition observer (e : observed) : M unit :=
  match e with
  | upgrade_relation_changed => _on_upgrade_changed
  | postgresql_pebble_ready => _postgresql_on_pebble_ready
  | resume_upgrade_action => _on_resume_upgrade
  | upgrade_finished => _on_upgrade_finished
  end.

(** The emission of an event hands a new event object to its observer.
    What the observer has done by the time it returns or raises stays
    done. *)
Definition emit (e : observed) (w : World) : World :=
  final (observer e) (with_event (mkEvent false None None) w).

Definition emit_all (es : list observed) (w : World) : World :=
  foldl (fun w e => emit e w) w es.

(** [n] runs of the resume action in a row. *)
Fixpoint resume_times (n : nat) (w : World) : World :=
  match n with
  | O => w
  | S n => resume_times n (final _on_resume_upgrade w)
  end.

(** ** Sample deployments

    Worlds on which the handlers are run below.  The application is
    [postgresql-k8s]; the cluster is initialised, Patroni has started on
    the unit, no switchover has been asked for yet and none fails, no
    request has been made to the API server, no event effect and no log
    record exists. *)
Definition fresh_event : Event := mkEvent false None None.

Definition deployment (unit : string) (planned : Z) (leader : bool)
    (primary_unit : string) (standbys : list string)
    (partition : Z) (faults : list bool) (relation : option Relation) : World :=
  mkWorld "postgresql-k8s" unit planned true leader
    (mkPatroni true primary_unit standbys None [])
    (mkStatefulSet partition faults [])
    relation fresh_event [] 0.

(** The peer relation of a unit that has recorded [state]. *)
Definition relation_in_state (state : string) : Relation :=
  mkRelation {[ "state" := state ]} ∅.

(** Three units, the unit 1 restarted during the upgrade while unit 2 is
    primary and unit 0 the synchronous standby; the API server refuses the
    next request. *)
Definition refused_read : World :=
  deployment "postgresql-k8s/1" 3 true "postgresql-k8s/2" ["postgresql-k8s/0"]
    2 [true] (Some (relation_in_state "upgrading")).

(** Three units, unit 1 has finished its upgrade with the partition at 1;
    the API server answers the read and refuses the write. *)
Definition refused_write : World :=
  deployment "postgresql-k8s/1" 3 false "postgresql-k8s/0" ["postgresql-k8s/2"]
    1 [false; true] (Some (relation_in_state "completed")).

(** Three units, unit 1 primary, and Patroni reports no synchronous
    standby. *)
Definition no_sync_standby : World :=
  deployment "postgresql-k8s/0" 3 true "postgresql-k8s/1" [] 0 []
    (Some (relation_in_state "idle")).

(** Three units, unit 1 primary, unit 0 its synchronous standby. *)
Definition standby_zero : World :=
  deployment "postgresql-k8s/0" 3 true "postgresql-k8s/1" ["postgresql-k8s/0"]
    0 [] (Some (relation_in_state "idle")).

(** Five units, the highest one primary, unit 2 its synchronous standby. *)
Definition primary_highest : World :=
  deployment "postgresql-k8s/0" 5 true "postgresql-k8s/4" ["postgresql-k8s/2"]
    0 [] (Some (relation_in_state "idle")).

(** Three units, unit 0 primary. *)
Definition primary_zero : World :=
  deployment "postgresql-k8s/0" 3 true "postgresql-k8s/0" ["postgresql-k8s/1"]
    0 [] (Some (relation_in_state "idle")).

(** Four units, unit 1 primary, unit 2 its synchronous standby. *)
Definition primary_middle : World :=
  deployment "postgresql-k8s/0" 4 true "postgresql-k8s/1" ["postgresql-k8s/2"]
    0 [] (Some (relation_in_state "idle")).

(** Three units with unit 0 primary, on whose leader the resume action is
    run with the partition at [partition]. *)
Definition stalled_at (partition : Z) (faults : list bool) : World :=
  deployment "postgresql-k8s/0" 3 true "postgresql-k8s/0" ["postgresql-k8s/1"]
    partition faults (Some (relation_in_state "completed")).

(** Three units, unit 1 restarted during the upgrade while unit 2 is primary
    and unit 0 the synchronous standby; unit 1 is not the leader. *)
Definition standby_elsewhere : World :=
  deployment "postgresql-k8s/1" 3 false "postgresql-k8s/2" ["postgresql-k8s/0"]
    2 [] (Some (relation_in_state "upgrading")).

(** Three units, unit 2 restarted during the upgrade and is the synchronous
    standby of the primary, unit 1. *)
Definition standby_here : World :=
  deployment "postgresql-k8s/2" 3 false "postgresql-k8s/1" ["postgresql-k8s/2"]
    2 [] (Some (relation_in_state "upgrading")).

(** Three units and the partition at [partition] when [unit] finishes its
    upgrade; unit 0 is primary. *)
Definition finishing (unit : string) (partition : Z) : World :=
  deployment unit 3 false "postgresql-k8s/0" ["postgresql-k8s/1"]
    partition [] (Some (relation_in_state "completed")).

(** Three units, unit 2 receives pebble-ready while its recorded state is
    "not-started". *)
Definition not_started : World :=
  deployment "postgresql-k8s/2" 3 false "postgresql-k8s/0" ["postgresql-k8s/1"]
    2 [] (Some (relation_in_state "not-started")).

(** Unit [ordinal] of an application of five units, of which unit 4 is
    primary and leader is [leader], with the partition at 3. *)
Definition member (ordinal : Z) (leader : bool) : World :=
  deployment ("postgresql-k8s/" +:+ str_int ordinal) 5 leader
    "postgresql-k8s/4" ["postgresql-k8s/0"] 3 []
    (Some (relation_in_state "idle")).

(** Three units, unit 0 primary; unit 1, the synchronous standby, has
    restarted during the upgrade with the partition at 1. *)
Definition completing : World :=
  deployment "postgresql-k8s/1" 3 false "postgresql-k8s/0" ["postgresql-k8s/1"]
    1 [] (Some (relation_in_state "upgrading")).

Ltac unfold_handlers :=
  unfold on_workload_ready, pebble_ready_completing,
    set_unit_completed_and_emit, _postgresql_on_pebble_ready, _on_resume_upgrade, _on_upgrade_changed,
    _on_upgrade_finished, pre_upgrade_check, _set_min_ordinal_sync_standbys,
    _set_first_rolling_update_partition, _set_rolling_update_partition,
    _get_rolling_update_partition, log_rollback_instructions,
    set_unit_completed, set_unit_failed, update_config,
    logger_debug, logger_info, logger_error, logger_exception, logger,
    get_primary, get_sync_standby_names, switchover, api_request,
    event_defer, event_set_results, event_fail,
    try_except, bind, ret, raise, get, modify in *.

Ltac unfold_views :=
  unfold final, result, partition_of, requests_of, faults_of, unit_state,
    min_ordinal_sync_standbys, request_fails, refresh_due, completes,
    not_only_sync_standby,
    store_partition, unit_zero_name_of, last_unit_name_of in *.

Ltac run := unfold_views; unfold_handlers; unfold_views; simpl.

(** Case analysis on a scrutinee of the goal that is itself free of case
    analyses, so that the program is followed in the order it runs. *)
Ltac first_test x :=
  lazymatch x with
  | negb ?a => first_test a
  | (?a || _)%bool => first_test a
  | (?a && _)%bool => first_test a
  | _ => constr:(x)
  end.

Ltac branch :=
  match goal with
  | |- context [match ?x with _ => _ end] =>
      lazymatch x with
      | context [match _ with _ => _ end] => fail
      | _ => let a := first_test x in destruct a eqn:?
      end
  end; simpl.

Ltac branches := repeat branch.

(** Turn the boolean tests met on the way into propositions, then close the
    goal, or show that the branch is not the one the hypotheses describe. *)
Ltac tidy :=
  repeat match goal with
  | H : bool_decide _ = true |- _ => apply bool_decide_eq_true in H
  | H : bool_decide _ = false |- _ => apply bool_decide_eq_false in H
  | H : (_ <? _)%Z = true |- _ => apply Z.ltb_lt in H
  | H : (_ <? _)%Z = false |- _ => apply Z.ltb_ge in H
  | H : (_ <=? _)%Z = true |- _ => apply Z.leb_le in H
  | H : (_ <=? _)%Z = false |- _ => apply Z.leb_gt in H
  end;
  simpl in *.

Ltac close := tidy; first [ done | congruence | lia | tauto ].

Lemma set_min_ordinal_frame (w : World) :
  partition_of (final _set_min_ordinal_sync_standbys w) = partition_of w /\
  (requests_of (final _set_min_ordinal_sync_standbys w) = requests_of w \/
   requests_of (final _set_min_ordinal_sync_standbys w) = (requests_of w ++ [Get])%list).
Proof.
  run.
  destruct (is_cluster_initialised w), (is_leader w); simpl; auto.
  destruct (2 <? planned_units w)%Z; simpl; auto.
  case_bool_decide; simpl; auto.
  destruct (api_faults (stateful_set w)) as [|[] ?]; simpl; auto;
    destruct (peer_relation w); simpl; auto.
Qed.

(** Log records change nothing in what the refresh of the hint does. *)
Lemma set_min_ordinal_with_log (l : list log_record) (w : World) :
  _set_min_ordinal_sync_standbys (with_log l w) =
  (result _set_min_ordinal_sync_standbys w,
   with_log l (final _set_min_ordinal_sync_standbys w)).
Proof.
  run.
  destruct (is_cluster_initialised w), (is_leader w); simpl; auto.
  destruct (2 <? planned_units w)%Z; simpl; auto.
  case_bool_decide; simpl; auto.
  destruct (api_faults (stateful_set w)) as [|[] ?]; simpl; auto;
    destruct (peer_relation w); simpl; auto.
Qed.

(** ** Properties of the handlers *)

(** The statements of [_postgresql_on_pebble_ready] themselves, with
    [set_unit_completed] the write of the state alone, ask for no write of
    the partition: the partition is the one found, and the requests added to
    those already made contain no [Patch]. *)
Lemma pebble_ready_own_requests (w : World) :
  partition_of (final _postgresql_on_pebble_ready w) = partition_of w /\
  exists rs,
    requests_of (final _postgresql_on_pebble_ready w) = (requests_of w ++ rs)%list /\
    forall p, Patch p ∉ rs.
Proof.
  assert (Hnil : forall p, Patch p ∉ @nil request) by (intros p; apply not_elem_of_nil).
  assert (Hget : forall p, Patch p ∉ [Get]).
  { intros p Hin. apply list_elem_of_singleton in Hin. discriminate. }
  assert (Hsame : forall l : list request, exists rs, l = (l ++ rs)%list /\ forall p, Patch p ∉ rs).
  { intros l. exists []. by rewrite app_nil_r. }
  assert (Hone : forall l : list request,
             exists rs, (l ++ [Get])%list = (l ++ rs)%list /\ forall p, Patch p ∉ rs).
  { intros l. by exists [Get]. }
  run. branches; by auto.
Qed.

(** C9: when the unit is the leader of an initialised cluster with more than
    two planned units and a primary other than unit 0, and the API server
    refuses the read of the partition, [_set_min_ordinal_sync_standbys]
    raises [ApiError], and so do the two handlers that call it: with the
    peer relation present [_on_upgrade_changed] raises it, neither deferring
    the event nor reaching [update_config]; and on the path of
    [_postgresql_on_pebble_ready] that reaches the refresh (state
    "upgrading", Patroni started, this unit not unit 0 and not the first of
    a non-empty list of synchronous standbys) the handler raises it without
    deferring the event and without touching the peer relation. *)
Theorem api_error_escapes_handlers (w : World) (r : Relation) :
  peer_relation w = Some r ->
  is_cluster_initialised w = true ->
  is_leader w = true ->
  2 < planned_units w ->
  primary (patroni w) ≠ unit_zero_name_of w ->
  request_fails 0 w = true ->
  result _set_min_ordinal_sync_standbys w = Raises ApiError /\
  (result _on_upgrade_changed w = Raises ApiError /\
   event (final _on_upgrade_changed w) = event w /\
   config_updates (final _on_upgrade_changed w) = config_updates w) /\
  (unit_data r !! "state" = Some "upgrading" ->
   member_started (patroni w) = true ->
   unit_name w ≠ unit_zero_name_of w ->
   (0 < length (sync_standby_names (patroni w)))%nat ->
   sync_standby_names (patroni w) !! 0%nat ≠ Some (unit_name w) ->
   result _postgresql_on_pebble_ready w = Raises ApiError /\
   event (final _postgresql_on_pebble_ready w) = event w /\
   peer_relation (final _postgresql_on_pebble_ready w) = peer_relation w).
Proof.
  intros Hrel Hinit Hlead Hn Hprim Hfail.
  split; [|split].
  - run. branches; close.
  - run. branches; close.
  - intros Hstate Hstarted Hme Hlen Hfirst.
    run. branches; close.
Qed.

(** The three computations on the leader unit 1 of three whose read is
    refused. *)
Lemma api_error_escapes_handlers_witness :
  result _set_min_ordinal_sync_standbys refused_read = Raises ApiError /\
  result _on_upgrade_changed refused_read = Raises ApiError /\
  result _postgresql_on_pebble_ready refused_read = Raises ApiError /\
  deferred (event (final _postgresql_on_pebble_ready refused_read)) = false.
Proof.
  destruct (api_error_escapes_handlers refused_read (relation_in_state "upgrading"))
    as (H1 & (H2 & _) & H3).
  - reflexivity.
  - reflexivity.
  - reflexivity.
  - simpl. lia.
  - vm_compute. discriminate.
  - reflexivity.
  - destruct H3 as (H3 & H4 & _).
    + reflexivity.
    + reflexivity.
    + vm_compute. discriminate.
    + simpl. lia.
    + vm_compute. discriminate.
    + rewrite H4. repeat split; assumption || reflexivity.
Defined.

(** C8: when the API server refuses the read of the partition, or answers
    the read and refuses the write of the decremented partition, during the
    advance made by [_on_upgrade_finished] (the finishing unit is not
    [app/(planned_units - 1)]), the handler returns normally: the
    [ApiError] is caught, logged with [logger.exception], the unit's state
    in the peer relation becomes "failed", the two rollback instructions are
    the last records of the log, and the partition is the one found. *)
Theorem upgrade_finished_api_error_swallowed (w : World) :
  unit_name w ≠ last_unit_name_of w ->
  request_fails 0 w = true \/
  (request_fails 0 w = false /\ 0 <= partition_of w - 1 /\
   request_fails 1 w = true) ->
  result _on_upgrade_finished w = Returns tt /\
  peer_relation (final _on_upgrade_finished w) =
    (update_unit_data "state" "failed" <$> peer_relation w) /\
  (is_Some (peer_relation w) ->
   unit_state (final _on_upgrade_finished w) = Some "failed") /\
  partition_of (final _on_upgrade_finished w) = partition_of w /\
  log (final _on_upgrade_finished w) =
    (log w ++
     [LogRecord ERROR false (Msg ("finished for " +:+ unit_name w));
      LogRecord DEBUG false (Msg "Set rolling update partition to next unit")] ++
     (if request_fails 0 w then []
      else [LogRecord INFO false
              (Msg ("partition: " +:+ str_int (partition_of w - 1)))]) ++
     [LogRecord ERROR true (Msg "Cannot set rolling update partition");
      LogRecord INFO false
        (Msg "Run `juju refresh --revision <previous-revision> postgresql-k8s` to rollback");
      LogRecord INFO false
        (Msg "and `juju run-action postgresql-k8s/leader resume-upgrade` to finish the rollback")])%list.
Proof.
  intros Hme [Hfault|(Hread & Hnext & Hfault)].
  all: run; branches; tidy.
  all: try (exfalso; solve [close]).
  all: repeat split; try done.
  all: try (intros [r Hr]; try rewrite Hr; simpl; try apply lookup_insert_eq).
  all: try (rewrite <- !app_assoc; reflexivity).
Qed.

(** Unit 1 of three finishes, the read is answered and the write refused. *)
Lemma upgrade_finished_api_error_swallowed_witness :
  result _on_upgrade_finished refused_write = Returns tt /\
  unit_state (final _on_upgrade_finished refused_write) = Some "failed" /\
  partition_of (final _on_upgrade_finished refused_write) = 1.
Proof.
  destruct (upgrade_finished_api_error_swallowed refused_write)
    as (Hres & _ & Hstate & Hpart & _).
  - vm_compute. discriminate.
  - right. split; [reflexivity|]. split; [|reflexivity].
    unfold partition_of. simpl. lia.
  - split; [exact Hres|]. split; [|exact Hpart].
    apply Hstate. eexists. reflexivity.
Defined.

(** C7: when the primary is not unit 0 and Patroni returns an empty list of
    synchronous standbys, [pre_upgrade_check] raises [ClusterNotReadyError]
    and leaves the world as it found it: no request reaches the API server,
    the partition is not written, no switchover is asked for.  The list is
    asked of Patroni once the cluster is known to be initialised, and the
    error raised then carries "invalid number of sync nodes"; before that
    the check has already failed for the uninitialised cluster. *)
Theorem pre_upgrade_check_no_sync_standby (w : World) :
  primary (patroni w) ≠ unit_zero_name_of w ->
  sync_standby_names (patroni w) = [] ->
  (exists message cause,
     pre_upgrade_check w = (Raises (ClusterNotReadyError message cause), w)) /\
  (is_cluster_initialised w = true ->
   pre_upgrade_check w =
     (Raises (ClusterNotReadyError "invalid number of sync nodes" "no action!"), w)).
Proof.
  intros Hprim Hsync.
  split; [|intros Hinit]; run; branches; tidy.
  all: try (exfalso; try rewrite Hsync in *; solve [close]).
  all: eauto.
Qed.

(** Three units, unit 1 primary, no synchronous standby. *)
Lemma pre_upgrade_check_no_sync_standby_witness :
  pre_upgrade_check no_sync_standby =
    (Raises (ClusterNotReadyError "invalid number of sync nodes" "no action!"),
     no_sync_standby) /\
  partition_of (final pre_upgrade_check no_sync_standby) = 0 /\
  requests_of (final pre_upgrade_check no_sync_standby) = [].
Proof.
  destruct (pre_upgrade_check_no_sync_standby no_sync_standby) as [_ H].
  - vm_compute. discriminate.
  - reflexivity.
  - unfold final. rewrite H by reflexivity. repeat split.
Defined.

(** C6, as stated, fails for the middle primary.  Three units, unit 1
    primary, unit 0 its synchronous standby: the primary is neither unit 0
    nor the highest unit and is not itself a synchronous standby, yet the
    check asks for a switchover to unit 0 before it sets the partition. *)
Lemma pre_upgrade_check_middle_primary_switches :
  ~ (forall w : World,
       is_cluster_initialised w = true ->
       primary (patroni w) ≠ unit_zero_name_of w ->
       primary (patroni w) ≠ last_unit_name_of w ->
       primary (patroni w) ∉ sync_standby_names (patroni w) ->
       switchover_calls (patroni (final pre_upgrade_check w)) =
         switchover_calls (patroni w) /\
       sets_first_partition pre_upgrade_check w).
Proof.
  intros Hclaim.
  destruct (Hclaim standby_zero) as [Hcalls _].
  - reflexivity.
  - vm_compute. discriminate.
  - vm_compute. discriminate.
  - vm_compute. intros Hin. apply list_elem_of_singleton in Hin. discriminate.
  - vm_compute in Hcalls. discriminate Hcalls.
Qed.

(** C6, amended: [pre_upgrade_check] asks Patroni for a switchover only
    when the cluster is initialised, the primary is not unit 0, the list of
    synchronous standbys is not empty, and either unit 0 is in that list
    (the candidate is unit 0) or, unit 0 not being in it, the primary is
    the unit [app/(planned_units - 1)] (no candidate).  When the primary is
    unit 0, and in the last branch of the check (the primary is neither
    unit 0 nor the highest unit, the list is not empty and unit 0 is not in
    it), no switchover is asked for, and the check of an initialised
    cluster sets the first partition. *)
Theorem pre_upgrade_check_switchover_cases (w : World) :
  ((switchover_calls (patroni (final pre_upgrade_check w)) ≠
      switchover_calls (patroni w)) ->
   is_cluster_initialised w = true /\
   primary (patroni w) ≠ unit_zero_name_of w /\
   sync_standby_names (patroni w) ≠ [] /\
   ((unit_zero_name_of w ∈ sync_standby_names (patroni w) /\
     switchover_calls (patroni (final pre_upgrade_check w)) =
       (switchover_calls (patroni w) ++ [Some (unit_zero_name_of w)])%list) \/
    ((unit_zero_name_of w ∉ sync_standby_names (patroni w)) /\
     primary (patroni w) = last_unit_name_of w /\
     switchover_calls (patroni (final pre_upgrade_check w)) =
       (switchover_calls (patroni w) ++ [None])%list))) /\
  (primary (patroni w) = unit_zero_name_of w ->
   switchover_calls (patroni (final pre_upgrade_check w)) =
     switchover_calls (patroni w) /\
   (is_cluster_initialised w = true ->
    sets_first_partition pre_upgrade_check w)) /\
  (primary (patroni w) ≠ unit_zero_name_of w ->
   primary (patroni w) ≠ last_unit_name_of w ->
   sync_standby_names (patroni w) ≠ [] ->
   unit_zero_name_of w ∉ sync_standby_names (patroni w) ->
   switchover_calls (patroni (final pre_upgrade_check w)) =
     switchover_calls (patroni w) /\
   (is_cluster_initialised w = true ->
    sets_first_partition pre_upgrade_check w)).
Proof.
  assert (Hlen : forall l : list string, length l ≠ 0%nat -> l ≠ []).
  { intros l Hl ->. by apply Hl. }
  assert (Hnil : forall l : list string, length l = 0%nat -> l = []).
  { by intros [|? ?]. }
  split; [|split].
  - run. branches; intros Hcalls; tidy.
    all: try (exfalso; solve [close]).
    all: repeat split; auto.
  - intros Hprim. unfold sets_first_partition.
    run. branches; tidy.
    all: try (exfalso; solve [close]).
    all: repeat split; intros; tidy; try done.
  - intros Hprim Hlast Hsync Hzero. unfold sets_first_partition.
    run. branches; tidy.
    all: try (exfalso; solve [close]).
    all: try (exfalso; apply Hsync; auto; fail).
    all: repeat split; intros; tidy; try done.
Qed.

(** The four branches of the check, each on a deployment that takes it. *)
Lemma pre_upgrade_check_switchover_cases_witness :
  switchover_calls (patroni (final pre_upgrade_check standby_zero)) =
    [Some "postgresql-k8s/0"] /\
  switchover_calls (patroni (final pre_upgrade_check primary_highest)) = [None] /\
  (switchover_calls (patroni (final pre_upgrade_check primary_zero)) = [] /\
   partition_of (final pre_upgrade_check primary_zero) = 2) /\
  (switchover_calls (patroni (final pre_upgrade_check primary_middle)) = [] /\
   partition_of (final pre_upgrade_check primary_middle) = 3).
Proof.
  split; [|split; [|split]].
  - destruct (pre_upgrade_check_switchover_cases standby_zero) as [H _].
    destruct H as (_ & _ & _ & [[_ H]|(Hno & _)]).
    + vm_compute. discriminate.
    + exact H.
    + exfalso. apply Hno. vm_compute. left.
  - destruct (pre_upgrade_check_switchover_cases primary_highest) as [H _].
    destruct H as (_ & _ & _ & [[Hin _]|(_ & _ & H)]).
    + vm_compute. discriminate.
    + exfalso. vm_compute in Hin.
      apply list_elem_of_singleton in Hin. discriminate.
    + exact H.
  - destruct (pre_upgrade_check_switchover_cases primary_zero) as (_ & H & _).
    destruct H as (Hcalls & Hset); [reflexivity|].
    destruct Hset as (_ & Hset & _); [reflexivity|].
    split; [exact Hcalls|]. apply Hset. reflexivity.
  - destruct (pre_upgrade_check_switchover_cases primary_middle) as (_ & _ & H).
    destruct H as (Hcalls & Hset).
    + vm_compute. discriminate.
    + vm_compute. discriminate.
    + vm_compute. discriminate.
    + vm_compute. intros Hin. apply list_elem_of_singleton in Hin. discriminate.
    + destruct Hset as (_ & Hset & _); [reflexivity|].
      split; [exact Hcalls|]. apply Hset. reflexivity.
Defined.

(** When [pre_upgrade_check] returns, depending on the world it ran in. *)
Lemma pre_upgrade_check_returns_iff (w : World) :
  result pre_upgrade_check w = Returns tt <->
  is_cluster_initialised w = true /\
  request_fails 0 w = false /\
  (primary (patroni w) = unit_zero_name_of w \/
   (sync_standby_names (patroni w) ≠ [] /\
    ((unit_zero_name_of w ∈ sync_standby_names (patroni w) \/
      primary (patroni w) = last_unit_name_of w) ->
     switchover_error (patroni w) = None))).
Proof.
  assert (Hlen : forall l : list string, length l ≠ 0%nat -> l ≠ []).
  { intros l Hl ->. by apply Hl. }
  assert (Hnil : forall l : list string, l ≠ [] -> length l ≠ 0%nat).
  { intros [|? ?]; simpl; auto. }
  run. branches; tidy; split.
  all: match goal with
       | |- _ = Returns () -> _ => intros Hres; try discriminate Hres
       | |- _ -> _ = Returns () =>
           intros (Hi & Hf & Hc); try reflexivity; exfalso;
           destruct Hc as [Hp|(Hs & Hsw)]; try congruence;
           try (apply Hnil in Hs; congruence);
           try (discriminate Hsw; tauto)
       end.
  all: repeat split; try done.
  all: try (left; assumption).
  all: right; split; [by apply Hlen|]; intros [?|?]; try done; try congruence.
Qed.

(** C2: for a positive number of planned units, every run of
    [pre_upgrade_check] that returns has ended by writing the partition
    [planned_units - 1]: that patch is the one request made, the partition
    has that value and so lies between 0 and [planned_units - 1].  The run
    went through one of the four branches that return: primary already
    unit 0; switchover to unit 0; switchover away from the primary
    [app/(planned_units - 1)]; or the last branch, without switchover. *)
Theorem pre_upgrade_check_success_partition (w w' : World) :
  0 < planned_units w ->
  pre_upgrade_check w = (Returns tt, w') ->
  partition_of w' = planned_units w - 1 /\
  0 <= partition_of w' <= planned_units w - 1 /\
  requests_of w' = (requests_of w ++ [Patch (planned_units w - 1)])%list /\
  ((primary (patroni w) = unit_zero_name_of w /\
    switchover_calls (patroni w') = switchover_calls (patroni w)) \/
   (primary (patroni w) ≠ unit_zero_name_of w /\
    unit_zero_name_of w ∈ sync_standby_names (patroni w) /\
    switchover_calls (patroni w') =
      (switchover_calls (patroni w) ++ [Some (unit_zero_name_of w)])%list) \/
   (primary (patroni w) ≠ unit_zero_name_of w /\
    (unit_zero_name_of w ∉ sync_standby_names (patroni w)) /\
    primary (patroni w) = last_unit_name_of w /\
    switchover_calls (patroni w') = (switchover_calls (patroni w) ++ [None])%list) \/
   (primary (patroni w) ≠ unit_zero_name_of w /\
    (unit_zero_name_of w ∉ sync_standby_names (patroni w)) /\
    primary (patroni w) ≠ last_unit_name_of w /\
    sync_standby_names (patroni w) ≠ [] /\
    switchover_calls (patroni w') = switchover_calls (patroni w))).
Proof.
  assert (Hlen : forall l : list string, length l ≠ 0%nat -> l ≠ []).
  { intros l Hl ->. by apply Hl. }
  intros Hn. run. branches; intros Hrun; tidy; try discriminate Hrun.
  all: injection Hrun as <-; simpl.
  all: split; [reflexivity|]; split; [lia|]; split; [reflexivity|].
  - left. by split.
  - left. by split.
  - right. left. by repeat split.
  - right. left. by repeat split.
  - right. right. left. by repeat split.
  - right. right. left. by repeat split.
  - right. right. right. repeat split; auto.
  - right. right. right. repeat split; auto.
Qed.

(** The partition after the check on each of the four returning branches. *)
Lemma pre_upgrade_check_success_partition_witness :
  partition_of (final pre_upgrade_check primary_zero) = 2 /\
  partition_of (final pre_upgrade_check standby_zero) = 2 /\
  partition_of (final pre_upgrade_check primary_highest) = 4 /\
  partition_of (final pre_upgrade_check primary_middle) = 3.
Proof.
  split; [|split; [|split]].
  - apply (pre_upgrade_check_success_partition primary_zero).
    + simpl. lia.
    + reflexivity.
  - apply (pre_upgrade_check_success_partition standby_zero).
    + simpl. lia.
    + reflexivity.
  - apply (pre_upgrade_check_success_partition primary_highest).
    + simpl. lia.
    + reflexivity.
  - apply (pre_upgrade_check_success_partition primary_middle).
    + simpl. lia.
    + reflexivity.
Defined.

(** C3: [_on_resume_upgrade] always returns, and what it reports follows
    the partition [P] it reads.  If the read is answered and [P > 0], it
    asks for the partition [P - 1] and, the write answered, the partition is
    [P - 1] and the event results are the message naming unit [P - 1].  If
    the read is answered and [P - 1 < 0] (in particular [P = 0]), the event
    fails with "Nothing to resume, upgrade stack unset" and nothing is
    written.  If the read is refused, or the write is, the event fails with
    "Cannot set rolling update partition" and the partition is the one
    found. *)
Theorem resume_upgrade_cases (w : World) :
  result _on_resume_upgrade w = Returns tt /\
  (request_fails 0 w = false -> 0 < partition_of w ->
   request_fails 1 w = false ->
   partition_of (final _on_resume_upgrade w) = partition_of w - 1 /\
   requests_of (final _on_resume_upgrade w) =
     (requests_of w ++ [Get; Patch (partition_of w - 1)])%list /\
   results (event (final _on_resume_upgrade w)) =
     Some [("message",
            "Upgrade will resume on unit " +:+ str_int (partition_of w - 1))] /\
   failed (event (final _on_resume_upgrade w)) = failed (event w)) /\
  (request_fails 0 w = false -> partition_of w <= 0 ->
   failed (event (final _on_resume_upgrade w)) =
     Some "Nothing to resume, upgrade stack unset" /\
   partition_of (final _on_resume_upgrade w) = partition_of w /\
   requests_of (final _on_resume_upgrade w) = (requests_of w ++ [Get])%list /\
   results (event (final _on_resume_upgrade w)) = results (event w)) /\
  (request_fails 0 w = true \/
   (request_fails 0 w = false /\ 0 < partition_of w /\
    request_fails 1 w = true) ->
   failed (event (final _on_resume_upgrade w)) =
     Some "Cannot set rolling update partition" /\
   partition_of (final _on_resume_upgrade w) = partition_of w /\
   results (event (final _on_resume_upgrade w)) = results (event w)).
Proof.
  split; [|split; [|split]].
  - run. branches; reflexivity.
  - intros Hread Hpos Hwrite. run. branches; tidy.
    all: try (exfalso; solve [close]).
    all: repeat split; try done.
    all: rewrite <- app_assoc; reflexivity.
  - intros Hread Hzero. run. branches; tidy.
    all: try (exfalso; solve [close]).
    all: repeat split; done.
  - intros [Hread|(Hread & Hpos & Hwrite)]; run; branches; tidy.
    all: try (exfalso; solve [close]).
    all: repeat split; done.
Qed.

(** The resume action at partition 2, at partition 0, and with the read or
    the write refused. *)
Lemma resume_upgrade_cases_witness :
  (partition_of (final _on_resume_upgrade (stalled_at 2 [])) = 1 /\
   results (event (final _on_resume_upgrade (stalled_at 2 []))) =
     Some [("message", "Upgrade will resume on unit 1")]) /\
  failed (event (final _on_resume_upgrade (stalled_at 0 []))) =
    Some "Nothing to resume, upgrade stack unset" /\
  failed (event (final _on_resume_upgrade (stalled_at 2 [true]))) =
    Some "Cannot set rolling update partition" /\
  failed (event (final _on_resume_upgrade (stalled_at 2 [false; true]))) =
    Some "Cannot set rolling update partition".
Proof.
  split; [|split; [|split]].
  - destruct (resume_upgrade_cases (stalled_at 2 [])) as (_ & H & _).
    destruct H as (Hp & _ & Hr & _).
    + reflexivity.
    + unfold partition_of. simpl. lia.
    + reflexivity.
    + split; [exact Hp | exact Hr].
  - destruct (resume_upgrade_cases (stalled_at 0 [])) as (_ & _ & H & _).
    destruct H as (Hf & _).
    + reflexivity.
    + unfold partition_of. simpl. lia.
    + exact Hf.
  - destruct (resume_upgrade_cases (stalled_at 2 [true])) as (_ & _ & _ & H).
    destruct H as (Hf & _).
    + left. reflexivity.
    + exact Hf.
  - destruct (resume_upgrade_cases (stalled_at 2 [false; true])) as (_ & _ & _ & H).
    destruct H as (Hf & _).
    + right. split; [reflexivity|]. split; [|reflexivity].
      unfold partition_of. simpl. lia.
    + exact Hf.
Defined.

(** C5, as stated, fails: the leader of an initialised cluster of three
    units whose primary is unit 2 meets the four conditions, yet when the
    API server refuses the read of the partition nothing is written to the
    peer relation. *)
Lemma set_min_ordinal_sync_standbys_not_iff :
  ~ (forall w : World,
       is_Some (peer_relation w) ->
       (refresh_due w ->
        min_ordinal_sync_standbys (final _set_min_ordinal_sync_standbys w) =
          Some (str_int (partition_of w))) /\
       (~ refresh_due w ->
        peer_relation (final _set_min_ordinal_sync_standbys w) = peer_relation w)).
Proof.
  intros Hclaim.
  destruct (Hclaim refused_read) as [Hwrites _].
  - eexists. reflexivity.
  - assert (Hdue : refresh_due refused_read).
    { repeat split; try reflexivity. vm_compute. discriminate. }
    specialize (Hwrites Hdue). vm_compute in Hwrites. discriminate Hwrites.
Qed.

(** C5, amended: [_set_min_ordinal_sync_standbys] writes the hint, with the
    partition it has read as value, exactly when the four conditions hold
    and the API server answers the read.  When the four conditions hold and
    the read is refused it raises [ApiError] and the peer relation is as it
    was; when one of the four conditions fails it returns and leaves the
    whole world as it was. *)
Theorem set_min_ordinal_sync_standbys_cases (w : World) :
  (refresh_due w -> request_fails 0 w = false ->
   forall r, peer_relation w = Some r ->
   result _set_min_ordinal_sync_standbys w = Returns tt /\
   peer_relation (final _set_min_ordinal_sync_standbys w) =
     Some (update_app_data "min-ordinal-sync-standbys"
             (str_int (partition_of w)) r) /\
   min_ordinal_sync_standbys (final _set_min_ordinal_sync_standbys w) =
     Some (str_int (partition_of w))) /\
  (refresh_due w -> request_fails 0 w = true ->
   result _set_min_ordinal_sync_standbys w = Raises ApiError /\
   peer_relation (final _set_min_ordinal_sync_standbys w) = peer_relation w) /\
  (~ refresh_due w ->
   _set_min_ordinal_sync_standbys w = (Returns tt, w)) /\
  (peer_relation (final _set_min_ordinal_sync_standbys w) ≠ peer_relation w ->
   refresh_due w /\ request_fails 0 w = false).
Proof.
  split; [|split; [|split]].
  - intros (Hinit & Hlead & Hn & Hprim) Hread r Hrel.
    run. branches; tidy.
    all: try (exfalso; solve [close]).
    all: injection Hrel as <-; repeat split; try done.
    all: apply lookup_insert_eq.
  - intros (Hinit & Hlead & Hn & Hprim) Hread.
    run. branches; tidy.
    all: try (exfalso; solve [close]).
    all: by split.
  - intros Hnot. run. branches; tidy; try reflexivity.
    all: exfalso; apply Hnot; repeat split; solve [close].
  - run. branches; intros Hchanged; tidy; try done.
    all: repeat split; solve [close].
Qed.

(** The refresh where it writes, where the read is refused, and where the
    primary is unit 0. *)
Lemma set_min_ordinal_sync_standbys_cases_witness :
  min_ordinal_sync_standbys (final _set_min_ordinal_sync_standbys primary_middle) =
    Some "0" /\
  result _set_min_ordinal_sync_standbys refused_read = Raises ApiError /\
  _set_min_ordinal_sync_standbys primary_zero = (Returns tt, primary_zero).
Proof.
  split; [|split].
  - destruct (set_min_ordinal_sync_standbys_cases primary_middle) as (H & _).
    assert (Hdue : refresh_due primary_middle).
    { split; [reflexivity|]. split; [reflexivity|]. split; [reflexivity|].
      vm_compute. discriminate. }
    destruct (H Hdue eq_refl _ eq_refl) as (_ & _ & Hhint).
    exact Hhint.
  - destruct (set_min_ordinal_sync_standbys_cases refused_read) as (_ & H & _).
    destruct H as (Hres & _).
    + split; [reflexivity|]. split; [reflexivity|]. split; [reflexivity|].
      vm_compute. discriminate.
    + reflexivity.
    + exact Hres.
  - destruct (set_min_ordinal_sync_standbys_cases primary_zero) as (_ & _ & H & _).
    apply H. intros (_ & _ & _ & Hprim). apply Hprim. reflexivity.
Defined.




(** C1, as stated, fails.  The unit that [_on_upgrade_finished] exempts is
    [app/(planned_units - 1)], the highest ordinal, not unit 0: with three
    units and the partition at 2, unit 2 finishes and the partition stays
    at 2 although unit 2 is not unit 0 and 2 - 1 >= 0. *)
Lemma upgrade_finished_exempts_highest_unit :
  ~ (forall w : World,
       request_fails 0 w = false -> request_fails 1 w = false ->
       (unit_name w ≠ unit_zero_name_of w ->
        partition_of (final _on_upgrade_finished w) =
          if (0 <=? partition_of w - 1)%Z then partition_of w - 1
          else partition_of w) /\
       (unit_name w = unit_zero_name_of w ->
        partition_of (final _on_upgrade_finished w) = partition_of w)).
Proof.
  intros Hclaim.
  destruct (Hclaim (finishing "postgresql-k8s/2" 2) eq_refl eq_refl) as [Hadvance _].
  assert (Hnot_zero : unit_name (finishing "postgresql-k8s/2" 2) ≠
                      unit_zero_name_of (finishing "postgresql-k8s/2" 2)).
  { vm_compute. discriminate. }
  specialize (Hadvance Hnot_zero). vm_compute in Hadvance. discriminate Hadvance.
Qed.

(** C1, amended: [_on_upgrade_finished] makes no request and leaves the
    StatefulSet as it is when the finishing unit is
    [app/(planned_units - 1)].  For any other unit it reads the partition
    [P] and, the read answered, asks for [P - 1] only when [P - 1 >= 0]; the
    write answered, the partition is [P - 1].  Unit 0 is among those other
    units as soon as there are two units or more: it is the test
    [P - 1 >= 0] that keeps its completion with the partition at 0 from
    writing anything.  So a partition that is not negative never becomes
    negative, and when unit 0 finishes with the partition at 0 the
    partition is still 0 and no [Patch] has been asked for. *)
Theorem upgrade_finished_partition (w : World) :
  (unit_name w = last_unit_name_of w ->
   result _on_upgrade_finished w = Returns tt /\
   stateful_set (final _on_upgrade_finished w) = stateful_set w) /\
  (unit_name w ≠ last_unit_name_of w -> request_fails 0 w = false ->
   (0 <= partition_of w - 1 ->
    requests_of (final _on_upgrade_finished w) =
      (requests_of w ++ [Get; Patch (partition_of w - 1)])%list /\
    (request_fails 1 w = false ->
     result _on_upgrade_finished w = Returns tt /\
     partition_of (final _on_upgrade_finished w) = partition_of w - 1)) /\
   (partition_of w - 1 < 0 ->
    result _on_upgrade_finished w = Returns tt /\
    requests_of (final _on_upgrade_finished w) = (requests_of w ++ [Get])%list /\
    partition_of (final _on_upgrade_finished w) = partition_of w)) /\
  (0 <= partition_of w -> 0 <= partition_of (final _on_upgrade_finished w)) /\
  (unit_name w = unit_zero_name_of w -> partition_of w = 0 ->
   partition_of (final _on_upgrade_finished w) = 0 /\
   forall p, Patch p ∉ drop (length (requests_of w))
                         (requests_of (final _on_upgrade_finished w))).
Proof.
  assert (Hget : forall p, Patch p ∉ [Get]).
  { intros p Hin. apply list_elem_of_singleton in Hin. discriminate. }
  assert (Hnil : forall p, Patch p ∉ @nil request) by (intros p; apply not_elem_of_nil).
  split; [|split; [|split]].
  - intros Hlast. run. branches; tidy.
    all: try (exfalso; solve [close]).
    all: by split.
  - intros Hlast Hread. split.
    + intros Hpos. run. branches; tidy.
      all: try (exfalso; solve [close]).
      all: split; [rewrite <- ?app_assoc; reflexivity|].
      all: intros Hwrite; simpl in Hwrite; try discriminate Hwrite.
      all: by split.
    + intros Hneg. run. branches; tidy.
      all: try (exfalso; solve [close]).
      all: by repeat split.
  - run. branches; intros Hpos; tidy; lia.
  - intros Hzero Hpart. run. branches; tidy.
    all: try (exfalso; solve [close]).
    all: split; [done|]; intros p.
    all: rewrite ?drop_app_length, ?drop_all; auto.
Qed.

(** The highest unit, a middle unit, and unit 0 with the partition at 1 and
    at 0. *)
Lemma upgrade_finished_partition_witness :
  partition_of (final _on_upgrade_finished (finishing "postgresql-k8s/2" 2)) = 2 /\
  partition_of (final _on_upgrade_finished (finishing "postgresql-k8s/1" 2)) = 1 /\
  partition_of (final _on_upgrade_finished (finishing "postgresql-k8s/0" 1)) = 0 /\
  partition_of (final _on_upgrade_finished (finishing "postgresql-k8s/0" 0)) = 0.
Proof.
  split; [|split; [|split]].
  - destruct (upgrade_finished_partition (finishing "postgresql-k8s/2" 2))
      as (H & _).
    destruct H as (_ & Hset); [reflexivity|].
    unfold partition_of. rewrite Hset. reflexivity.
  - destruct (upgrade_finished_partition (finishing "postgresql-k8s/1" 2))
      as (_ & H & _).
    destruct H as ((_ & Hwritten) & _).
    + vm_compute. discriminate.
    + reflexivity.
    + unfold partition_of. simpl. lia.
    + destruct Hwritten as [_ Hp]; [reflexivity | exact Hp].
  - destruct (upgrade_finished_partition (finishing "postgresql-k8s/0" 1))
      as (_ & H & _).
    destruct H as ((_ & Hwritten) & _).
    + vm_compute. discriminate.
    + reflexivity.
    + unfold partition_of. simpl. lia.
    + destruct Hwritten as [_ Hp]; [reflexivity | exact Hp].
  - destruct (upgrade_finished_partition (finishing "postgresql-k8s/0" 0))
      as (_ & _ & _ & H).
    destruct H as (Hp & _); [reflexivity|reflexivity|exact Hp].
Defined.

(** ** Scenarios *)

(** Five units, unit 4 primary, unit 2 synchronous standby: the check asks
    for a switchover without candidate, then sets the partition to 4. *)
Example scenario_primary_highest :
  result pre_upgrade_check primary_highest = Returns tt /\
  switchover_calls (patroni (final pre_upgrade_check primary_highest)) = [None] /\
  requests_of (final pre_upgrade_check primary_highest) = [Patch 4] /\
  partition_of (final pre_upgrade_check primary_highest) = 4.
Proof. repeat split. Qed.

(** Three units, unit 1 primary, unit 0 synchronous standby: the check asks
    for a switchover to unit 0, then sets the partition to 2. *)
Example scenario_standby_zero :
  result pre_upgrade_check standby_zero = Returns tt /\
  switchover_calls (patroni (final pre_upgrade_check standby_zero)) =
    [Some "postgresql-k8s/0"] /\
  requests_of (final pre_upgrade_check standby_zero) = [Patch 2] /\
  partition_of (final pre_upgrade_check standby_zero) = 2.
Proof. repeat split. Qed.

(** Pebble-ready on a unit whose state is "not-started" changes nothing. *)
Example scenario_not_started :
  _postgresql_on_pebble_ready not_started = (Returns tt, not_started).
Proof. reflexivity. Qed.

(** Unit 0 of three finishes with the partition at 0: one read, no write. *)
Example scenario_unit_zero_finishes :
  result _on_upgrade_finished (finishing "postgresql-k8s/0" 0) = Returns tt /\
  requests_of (final _on_upgrade_finished (finishing "postgresql-k8s/0" 0)) = [Get] /\
  partition_of (final _on_upgrade_finished (finishing "postgresql-k8s/0" 0)) = 0.
Proof. repeat split. Qed.

(** Unit 2 of three, the first to be upgraded, finishes with the partition
    at 2: no request at all, the partition waits for the resume action. *)
Example scenario_highest_unit_finishes :
  requests_of (final _on_upgrade_finished (finishing "postgresql-k8s/2" 2)) = [] /\
  partition_of (final _on_upgrade_finished (finishing "postgresql-k8s/2" 2)) = 2.
Proof. repeat split. Qed.

(** ** Further properties of the handlers *)

(** One observer run lowers the partition by one, and then not below 0, or
    leaves it. *)
Lemma observer_partition_step (e : observed) (w : World) :
  partition_of (final (observer e) w) = partition_of w \/
  (partition_of (final (observer e) w) = partition_of w - 1 /\
   0 <= partition_of w - 1).
Proof.
  destruct e; simpl; run; branches; tidy; auto.
Qed.

(** X1: whatever events are emitted, in whatever order and whatever the API
    server refuses, the observers only lower the partition, by at most one
    per event, and never below 0 when it was not below 0. *)
Theorem emit_all_partition (es : list observed) (w : World) :
  partition_of w - Z.of_nat (length es) <= partition_of (emit_all es w) <=
    partition_of w /\
  Z.min 0 (partition_of w) <= partition_of (emit_all es w).
Proof.
  revert w. induction es as [|e es IH]; intros w.
  - simpl. lia.
  - change (emit_all (e :: es) w) with (emit_all es (emit e w)).
    rewrite length_cons, Nat2Z.inj_succ.
    specialize (IH (emit e w)).
    assert (Hstep : partition_of (emit e w) = partition_of w \/
                    (partition_of (emit e w) = partition_of w - 1 /\
                     0 <= partition_of w - 1)).
    { unfold emit.
      apply (observer_partition_step e (with_event (mkEvent false None None) w)). }
    lia.
Qed.

(** What no observer changes: the names, the number of planned units, the
    initialisation and leadership flags, and Patroni, which no observer asks
    for a switchover. *)
Lemma observer_keeps (e : observed) (w : World) :
  app_name (final (observer e) w) = app_name w /\
  unit_name (final (observer e) w) = unit_name w /\
  planned_units (final (observer e) w) = planned_units w /\
  is_cluster_initialised (final (observer e) w) = is_cluster_initialised w /\
  is_leader (final (observer e) w) = is_leader w /\
  patroni (final (observer e) w) = patroni w.
Proof.
  destruct e; simpl; run; branches; done.
Qed.

(** X2: no sequence of events makes an observer ask Patroni for a
    switchover, or changes anything else of Patroni: switchovers are only
    asked for by [pre_upgrade_check]. *)
Theorem emit_all_keeps_patroni (es : list observed) (w : World) :
  patroni (emit_all es w) = patroni w /\
  switchover_calls (patroni (emit_all es w)) = switchover_calls (patroni w).
Proof.
  assert (H : patroni (emit_all es w) = patroni w); [|by rewrite H].
  revert w. induction es as [|e es IH]; intros w; [done|].
  change (emit_all (e :: es) w) with (emit_all es (emit e w)).
  rewrite IH. unfold emit.
  by destruct (observer_keeps e (with_event (mkEvent false None None) w))
    as (_ & _ & _ & _ & _ & ->).
Qed.

(** On a unit that is not the leader an observer leaves the application
    bag of the peer relation as it is. *)
Lemma observer_app_data_step (e : observed) (w : World) :
  is_leader w = false ->
  app_data <$> peer_relation (final (observer e) w) =
  app_data <$> peer_relation w.
Proof.
  intros Hleader. destruct e; simpl; run; branches; tidy; try done.
  all: repeat match goal with
              | H : peer_relation _ = _ |- _ => rewrite H
              end; try done.
  all: by destruct (peer_relation w).
Qed.

(** X3: on a unit that is not the leader no sequence of events changes the
    application bag of the peer relation, whatever the state of the
    cluster: the hint has a single writer. *)
Theorem emit_all_follower_keeps_app_data (es : list observed) (w : World) :
  is_leader w = false ->
  app_data <$> peer_relation (emit_all es w) = app_data <$> peer_relation w.
Proof.
  revert w. induction es as [|e es IH]; intros w Hleader; [done|].
  change (emit_all (e :: es) w) with (emit_all es (emit e w)).
  assert (Hkept : is_leader (emit e w) = false).
  { unfold emit.
    destruct (observer_keeps e (with_event (mkEvent false None None) w))
      as (_ & _ & _ & _ & -> & _). done. }
  rewrite (IH _ Hkept). unfold emit.
  by rewrite (observer_app_data_step e (with_event (mkEvent false None None) w)).
Qed.

(** The follower unit 1 of [standby_elsewhere] after pebble-ready, a change
    of the peer relation and the resume action. *)
Lemma emit_all_follower_keeps_app_data_witness :
  app_data <$> peer_relation
    (emit_all [postgresql_pebble_ready; upgrade_relation_changed;
               resume_upgrade_action] standby_elsewhere) = Some ∅.
Proof.
  rewrite (emit_all_follower_keeps_app_data _ standby_elsewhere).
  - reflexivity.
  - reflexivity.
Defined.

(** An observer leaves the state of the unit as it is, or makes it
    "failed", or, from "upgrading" only, "completed". *)
Lemma observer_unit_state_step (e : observed) (w : World) :
  unit_state (final (observer e) w) = unit_state w \/
  unit_state (final (observer e) w) = Some "failed" \/
  (unit_state w = Some "upgrading" /\
   unit_state (final (observer e) w) = Some "completed").
Proof.
  destruct e; simpl; run; branches; tidy; auto.
  all: simplify_eq;
    repeat match goal with
           | H : peer_relation _ = Some _ |- _ => rewrite H
           | H : peer_relation _ = None |- _ => rewrite H
           end; simpl.
  all: try (destruct (peer_relation w); simpl).
  all: first
    [ left; reflexivity
    | right; left; apply lookup_insert_eq
    | right; right; split; [by apply dec_stable | apply lookup_insert_eq] ].
Qed.

(** X4: the state "completed" is reached from "upgrading" only.  A unit
    whose recorded state is not "upgrading" (none recorded, "not-started",
    "completed", "failed", ...) keeps its state over any sequence of
    events, unless an API failure makes it "failed". *)
Theorem emit_all_unit_state (es : list observed) (w : World) :
  unit_state w ≠ Some "upgrading" ->
  unit_state (emit_all es w) = unit_state w \/
  unit_state (emit_all es w) = Some "failed".
Proof.
  revert w. induction es as [|e es IH]; intros w Hstate; [by left|].
  change (emit_all (e :: es) w) with (emit_all es (emit e w)).
  assert (Hstep : unit_state (emit e w) = unit_state w \/
                  unit_state (emit e w) = Some "failed").
  { unfold emit.
    destruct (observer_unit_state_step e (with_event (mkEvent false None None) w))
      as [H|[H|[H _]]]; [by left|by right|by destruct Hstate]. }
  destruct Hstep as [Hstep|Hstep].
  - destruct (IH (emit e w)) as [H|H]; [congruence|left|right]; congruence.
  - destruct (IH (emit e w)) as [H|H]; [by rewrite Hstep|right|right]; congruence.
Qed.

(** Unit 2 of [not_started] receives pebble-ready twice, then finishes. *)
Lemma emit_all_unit_state_witness :
  unit_state (emit_all [postgresql_pebble_ready; postgresql_pebble_ready;
                        upgrade_finished] not_started) = Some "not-started".
Proof.
  destruct (emit_all_unit_state
              [postgresql_pebble_ready; postgresql_pebble_ready; upgrade_finished]
              not_started) as [H|H].
  - vm_compute. discriminate.
  - exact H.
  - vm_compute in H. discriminate H.
Defined.

(** X5: [_on_upgrade_changed] without peer relation defers the event and
    does nothing else.  With the peer relation it never defers: it ends as
    the refresh of the hint ends, leaves the peer relation as the refresh
    leaves it, and calls [update_config] once when the refresh returns and
    not at all when the refresh raises. *)
Theorem upgrade_changed_cases (w : World) :
  (peer_relation w = None ->
   _on_upgrade_changed w =
     (Returns tt,
      with_event (mkEvent true (results (event w)) (failed (event w))) w)) /\
  (is_Some (peer_relation w) ->
   event (final _on_upgrade_changed w) = event w /\
   result _on_upgrade_changed w = result _set_min_ordinal_sync_standbys w /\
   peer_relation (final _on_upgrade_changed w) =
     peer_relation (final _set_min_ordinal_sync_standbys w) /\
   (result _set_min_ordinal_sync_standbys w = Returns tt ->
    config_updates (final _on_upgrade_changed w) = S (config_updates w)) /\
   (result _set_min_ordinal_sync_standbys w ≠ Returns tt ->
    config_updates (final _on_upgrade_changed w) = config_updates w)).
Proof.
  split.
  - intros Hrel. run. by rewrite Hrel.
  - intros [r Hrel]. run. rewrite Hrel. simpl. branches; tidy.
    all: repeat split; try done.
Qed.

(** A unit without peer relation, and the leader of [primary_middle]. *)
Lemma upgrade_changed_cases_witness :
  deferred (event (final _on_upgrade_changed
                     (with_peer_relation None primary_middle))) = true /\
  config_updates (final _on_upgrade_changed primary_middle) = 1%nat.
Proof.
  split.
  - destruct (upgrade_changed_cases (with_peer_relation None primary_middle))
      as [H _].
    unfold final. rewrite H by reflexivity. reflexivity.
  - destruct (upgrade_changed_cases primary_middle) as [_ H].
    destruct H as (_ & _ & _ & Hcalled & _).
    + eexists. reflexivity.
    + apply Hcalled. reflexivity.
Defined.

(** The second test of [_postgresql_on_pebble_ready]. *)
Lemma pebble_ready_skips (w : World) (r : Relation) :
  peer_relation w = Some r ->
  unit_data r !! "state" ≠ Some "upgrading" ->
  _postgresql_on_pebble_ready w = (Returns tt, w).
Proof.
  intros Hrel Hstate. run. rewrite Hrel. simpl.
  by rewrite bool_decide_true.
Qed.

(** X6: pebble-ready on a unit whose recorded state is anything but
    "upgrading", no state recorded included, changes nothing at all: no log
    record, no deferral, no request. *)
Theorem pebble_ready_not_upgrading (w : World) (r : Relation) :
  peer_relation w = Some r ->
  unit_data r !! "state" ≠ Some "upgrading" ->
  _postgresql_on_pebble_ready w = (Returns tt, w).
Proof. apply pebble_ready_skips. Qed.

(** The unit of [not_started], and a unit that has recorded no state. *)
Lemma pebble_ready_not_upgrading_witness :
  _postgresql_on_pebble_ready not_started = (Returns tt, not_started) /\
  _postgresql_on_pebble_ready
    (with_peer_relation (Some (mkRelation ∅ ∅)) not_started) =
    (Returns tt, with_peer_relation (Some (mkRelation ∅ ∅)) not_started).
Proof.
  split.
  - apply (pebble_ready_not_upgrading not_started (relation_in_state "not-started")).
    + reflexivity.
    + vm_compute. discriminate.
  - apply (pebble_ready_not_upgrading _ (mkRelation ∅ ∅)).
    + reflexivity.
    + vm_compute. discriminate.
Defined.

(** X7: pebble-ready is delivered again after a run that has marked the
    unit completed: the second run changes nothing. *)
Theorem pebble_ready_again (w : World) :
  unit_state (final _postgresql_on_pebble_ready w) = Some "completed" ->
  _postgresql_on_pebble_ready (final _postgresql_on_pebble_ready w) =
    (Returns tt, final _postgresql_on_pebble_ready w).
Proof.
  intros Hdone. unfold unit_state in Hdone.
  destruct (peer_relation (final _postgresql_on_pebble_ready w)) as [r|] eqn:Hrel;
    [|discriminate Hdone].
  apply (pebble_ready_skips _ r Hrel).
  simpl in Hdone. rewrite Hdone. discriminate.
Qed.

(** The unit of [standby_here], which the first run marks completed. *)
Lemma pebble_ready_again_witness :
  final _postgresql_on_pebble_ready (final _postgresql_on_pebble_ready standby_here) =
  final _postgresql_on_pebble_ready standby_here.
Proof.
  unfold final at 1.
  rewrite (pebble_ready_again standby_here).
  - reflexivity.
  - reflexivity.
Defined.

(** X8: pebble-ready without peer relation, or on an upgrading unit whose
    Patroni has not started, returns with the event deferred and one more
    log record; nothing else has changed: no request was made, the peer
    relation is untouched. *)
Theorem pebble_ready_defers_early (w : World) :
  peer_relation w = None \/
  (unit_state w = Some "upgrading" /\ member_started (patroni w) = false) ->
  result _postgresql_on_pebble_ready w = Returns tt /\
  deferred (event (final _postgresql_on_pebble_ready w)) = true /\
  length (log (final _postgresql_on_pebble_ready w)) = S (length (log w)) /\
  with_log (log w) (with_event (event w) (final _postgresql_on_pebble_ready w)) = w.
Proof.
  intros [Hrel|[Hstate Hstarted]]; destruct w as [? ? ? ? ? ? ? rel ? ? ?];
    run; simpl in *.
  - subst rel. simpl. rewrite length_app. simpl. repeat split; lia.
  - destruct rel as [r|]; [|discriminate Hstate]. simpl in *.
    rewrite bool_decide_false by (intros Hno; by apply Hno).
    simpl. rewrite Hstarted. simpl. rewrite length_app. simpl.
    repeat split; lia.
Qed.

(** The unit of [standby_here] before Patroni has started on it. *)
Lemma pebble_ready_defers_early_witness :
  deferred (event (final _postgresql_on_pebble_ready
    (with_patroni (mkPatroni false "postgresql-k8s/1" ["postgresql-k8s/2"] None [])
       standby_here))) = true.
Proof.
  apply (pebble_ready_defers_early
    (with_patroni (mkPatroni false "postgresql-k8s/1" ["postgresql-k8s/2"] None [])
       standby_here)).
  right. split; reflexivity.
Defined.

(** X9: [_on_upgrade_finished] never raises.  It marks the unit failed only
    when the API server has refused a request, and then the partition is
    the one found; otherwise the peer relation is untouched. *)
Theorem upgrade_finished_never_raises (w : World) :
  result _on_upgrade_finished w = Returns tt /\
  (peer_relation (final _on_upgrade_finished w) = peer_relation w \/
   (peer_relation (final _on_upgrade_finished w) =
      (update_unit_data "state" "failed" <$> peer_relation w) /\
    partition_of (final _on_upgrade_finished w) = partition_of w /\
    (request_fails 0 w = true \/ request_fails 1 w = true))).
Proof.
  run. branches; tidy; split; auto.
Qed.

(** X10: a switchover that Patroni refuses stops [pre_upgrade_check]: the
    check raises [ClusterNotReadyError] with the text of the failure and
    the instruction of its branch, one switchover has been asked for, and
    the StatefulSet has been neither read nor written. *)
Theorem pre_upgrade_check_switchover_refused (w : World) (reason : string) :
  is_cluster_initialised w = true ->
  primary (patroni w) ≠ unit_zero_name_of w ->
  sync_standby_names (patroni w) ≠ [] ->
  switchover_error (patroni w) = Some reason ->
  (unit_zero_name_of w ∈ sync_standby_names (patroni w) ->
   result pre_upgrade_check w =
     Raises (ClusterNotReadyError reason
               ("try to switchover manually to " +:+ unit_zero_name_of w)) /\
   switchover_calls (patroni (final pre_upgrade_check w)) =
     (switchover_calls (patroni w) ++ [Some (unit_zero_name_of w)])%list /\
   stateful_set (final pre_upgrade_check w) = stateful_set w) /\
  (unit_zero_name_of w ∉ sync_standby_names (patroni w) ->
   primary (patroni w) = last_unit_name_of w ->
   result pre_upgrade_check w =
     Raises (ClusterNotReadyError reason
               "try to manually switchover to any synchronous standby") /\
   switchover_calls (patroni (final pre_upgrade_check w)) =
     (switchover_calls (patroni w) ++ [None])%list /\
   stateful_set (final pre_upgrade_check w) = stateful_set w).
Proof.
  assert (Hnil : forall l : list string, length l = 0%nat -> l = []).
  { by intros [|? ?]. }
  intros Hinit Hprim Hsync Herr. split.
  - intros Hzero. run. branches; tidy.
    all: try (exfalso; solve [close]).
    all: try (exfalso; apply Hsync; auto; fail).
    all: by simplify_eq.
  - intros Hzero Hlast. run. branches; tidy.
    all: try (exfalso; solve [close]).
    all: try (exfalso; apply Hsync; auto; fail).
    all: by simplify_eq.
Qed.

(** [standby_zero] and [primary_highest] with a Patroni that refuses. *)
Lemma pre_upgrade_check_switchover_refused_witness :
  result pre_upgrade_check
    (with_patroni
       (mkPatroni true "postgresql-k8s/1" ["postgresql-k8s/0"] (Some "timeout") [])
       standby_zero) =
    Raises (ClusterNotReadyError "timeout"
              "try to switchover manually to postgresql-k8s/0") /\
  result pre_upgrade_check
    (with_patroni
       (mkPatroni true "postgresql-k8s/4" ["postgresql-k8s/2"] (Some "timeout") [])
       primary_highest) =
    Raises (ClusterNotReadyError "timeout"
              "try to manually switchover to any synchronous standby").
Proof.
  split.
  - destruct (pre_upgrade_check_switchover_refused
                (with_patroni
                   (mkPatroni true "postgresql-k8s/1" ["postgresql-k8s/0"]
                      (Some "timeout") [])
                   standby_zero) "timeout") as [H _].
    + reflexivity.
    + vm_compute. discriminate.
    + vm_compute. discriminate.
    + reflexivity.
    + destruct H as [H _]; [vm_compute; left | exact H].
  - destruct (pre_upgrade_check_switchover_refused
                (with_patroni
                   (mkPatroni true "postgresql-k8s/4" ["postgresql-k8s/2"]
                      (Some "timeout") [])
                   primary_highest) "timeout") as [_ H].
    + reflexivity.
    + vm_compute. discriminate.
    + vm_compute. discriminate.
    + reflexivity.
    + destruct H as [H _]; [| reflexivity | exact H].
      vm_compute. intros Hin. apply list_elem_of_singleton in Hin. discriminate.
Defined.

(** X11: [pre_upgrade_check] ends in one of three ways: it returns, it
    raises [ClusterNotReadyError], or the [ApiError] of the refused write of
    the partition leaves it uncaught; a [SwitchoverFailedError] never leaves
    it.  It never touches the peer relation, the event or the
    configuration, and never reads the partition.  Whenever it raises
    [ClusterNotReadyError] the StatefulSet has been neither read nor
    written, and on a cluster that is not initialised the world is as it
    was. *)
Theorem pre_upgrade_check_outcomes (w : World) :
  (result pre_upgrade_check w = Returns tt \/
   result pre_upgrade_check w = Raises ApiError \/
   exists message cause,
     result pre_upgrade_check w = Raises (ClusterNotReadyError message cause)) /\
  peer_relation (final pre_upgrade_check w) = peer_relation w /\
  event (final pre_upgrade_check w) = event w /\
  config_updates (final pre_upgrade_check w) = config_updates w /\
  (Get ∉ drop (length (requests_of w))
           (requests_of (final pre_upgrade_check w))) /\
  (result pre_upgrade_check w = Raises ApiError ->
   request_fails 0 w = true /\
   partition_of (final pre_upgrade_check w) = partition_of w) /\
  (forall message cause,
     result pre_upgrade_check w = Raises (ClusterNotReadyError message cause) ->
     stateful_set (final pre_upgrade_check w) = stateful_set w) /\
  (is_cluster_initialised w = false ->
   pre_upgrade_check w =
     (Raises (ClusterNotReadyError "cluster has not initialised yet"
                "cluster has not initialised yet"), w)).
Proof.
  assert (Hpatch : forall p, Get ∉ [Patch p]).
  { intros p Hin. apply list_elem_of_singleton in Hin. discriminate. }
  assert (Hnone : Get ∉ @nil request) by apply not_elem_of_nil.
  run. branches; tidy.
  all: repeat split; rewrite ?drop_app_length, ?drop_all; eauto.
  all: try (intros; discriminate).
Qed.

(** A cluster that is not initialised, the refused write on a cluster whose
    primary is unit 0, and the check of [no_sync_standby]. *)
Lemma pre_upgrade_check_outcomes_witness :
  final pre_upgrade_check
    (mkWorld "postgresql-k8s" "postgresql-k8s/0" 3 false true
       (mkPatroni true "postgresql-k8s/0" [] None [])
       (mkStatefulSet 0 [] []) None (mkEvent false None None) [] 0) =
    mkWorld "postgresql-k8s" "postgresql-k8s/0" 3 false true
      (mkPatroni true "postgresql-k8s/0" [] None [])
      (mkStatefulSet 0 [] []) None (mkEvent false None None) [] 0 /\
  partition_of (final pre_upgrade_check (stalled_at 1 [true])) = 1 /\
  stateful_set (final pre_upgrade_check no_sync_standby) =
    stateful_set no_sync_standby.
Proof.
  split; [|split].
  - destruct (pre_upgrade_check_outcomes
                (mkWorld "postgresql-k8s" "postgresql-k8s/0" 3 false true
                   (mkPatroni true "postgresql-k8s/0" [] None [])
                   (mkStatefulSet 0 [] []) None (mkEvent false None None) [] 0))
      as (_ & _ & _ & _ & _ & _ & _ & H).
    unfold final. rewrite H by reflexivity. reflexivity.
  - destruct (pre_upgrade_check_outcomes (stalled_at 1 [true]))
      as (_ & _ & _ & _ & _ & H & _).
    destruct H as [_ H]; [reflexivity | exact H].
  - destruct (pre_upgrade_check_outcomes no_sync_standby)
      as (_ & _ & _ & _ & _ & _ & H & _).
    apply (H "invalid number of sync nodes" "no action!"). reflexivity.
Defined.

(** The resume action when the API server refuses nothing. *)
Lemma resume_answered (w : World) :
  faults_of w = [] ->
  faults_of (final _on_resume_upgrade w) = [] /\
  ((0 < partition_of w /\
    partition_of (final _on_resume_upgrade w) = partition_of w - 1 /\
    results (event (final _on_resume_upgrade w)) =
      Some [("message",
             "Upgrade will resume on unit " +:+ str_int (partition_of w - 1))] /\
    failed (event (final _on_resume_upgrade w)) = failed (event w)) \/
   (partition_of w <= 0 /\
    partition_of (final _on_resume_upgrade w) = partition_of w /\
    results (event (final _on_resume_upgrade w)) = results (event w) /\
    failed (event (final _on_resume_upgrade w)) =
      Some "Nothing to resume, upgrade stack unset")).
Proof.
  intros Hfaults. run. rewrite Hfaults. simpl. branches; tidy.
  - split; [done|]. left. repeat split; try done. lia.
  - split; [done|]. right. repeat split; try done. lia.
Qed.

(** X12: the resume action reports exactly one outcome, and reports success
    exactly when it has lowered the partition by one: on an event that
    carries neither results nor failure yet, either the results are set,
    no failure is, and the partition is one lower and not negative, or a
    failure is set, no results are, and the partition is as it was. *)
Theorem resume_upgrade_reports_once (w : World) :
  results (event w) = None ->
  failed (event w) = None ->
  (is_Some (results (event (final _on_resume_upgrade w))) /\
   failed (event (final _on_resume_upgrade w)) = None /\
   partition_of (final _on_resume_upgrade w) = partition_of w - 1 /\
   0 <= partition_of (final _on_resume_upgrade w)) \/
  (results (event (final _on_resume_upgrade w)) = None /\
   is_Some (failed (event (final _on_resume_upgrade w))) /\
   partition_of (final _on_resume_upgrade w) = partition_of w).
Proof.
  intros Hresults Hfailed. run. branches; tidy.
  all: first [ left; repeat split; eauto; lia
             | right; repeat split; eauto ].
Qed.

(** The action at partition 2 and at partition 0. *)
Lemma resume_upgrade_reports_once_witness :
  failed (event (final _on_resume_upgrade (stalled_at 2 []))) = None /\
  results (event (final _on_resume_upgrade (stalled_at 0 []))) = None.
Proof.
  split.
  - destruct (resume_upgrade_reports_once (stalled_at 2 []) eq_refl eq_refl)
      as [(_ & H & _)|(_ & _ & H)].
    + exact H.
    + vm_compute in H. discriminate H.
  - destruct (resume_upgrade_reports_once (stalled_at 0 []) eq_refl eq_refl)
      as [(_ & _ & H & _)|(H & _)].
    + vm_compute in H. discriminate H.
    + exact H.
Defined.

(** X13: with an API server that refuses nothing, [k] resume actions in a
    row bring a partition [P >= 0] to [max 0 (P - k)]: [P] of them reach 0,
    and further ones change nothing. *)
Theorem resume_times_partition (k : nat) (w : World) :
  faults_of w = [] ->
  0 <= partition_of w ->
  partition_of (resume_times k w) = Z.max 0 (partition_of w - Z.of_nat k).
Proof.
  revert w. induction k as [|k IH]; intros w Hfaults Hpos.
  - simpl. lia.
  - change (resume_times (S k) w)
      with (resume_times k (final _on_resume_upgrade w)).
    destruct (resume_answered w Hfaults)
      as [Hkept [(Hlt & Hp & _)|(Hle & Hp & _)]].
    + rewrite IH by (try done; lia). rewrite Hp. lia.
    + rewrite IH by (try done; lia). rewrite Hp. lia.
Qed.

(** Five resume actions from partition 3. *)
Lemma resume_times_partition_witness :
  partition_of (resume_times 5 (stalled_at 3 [])) = 0.
Proof.
  rewrite (resume_times_partition 5 (stalled_at 3 [])).
  - reflexivity.
  - reflexivity.
  - unfold partition_of. simpl. lia.
Defined.

(** The partition that a returning [pre_upgrade_check] leaves. *)
Lemma pre_upgrade_check_returns_partition (w w' : World) :
  pre_upgrade_check w = (Returns tt, w') ->
  partition_of w' = planned_units w - 1.
Proof.
  run. branches; intros Hrun; tidy; try discriminate Hrun.
  all: by injection Hrun as <-.
Qed.

(** X14: the resume action after a check that has returned, the API server
    refusing nothing.  With two planned units or more it lowers the
    partition to [planned_units - 2] and names that unit; with one planned
    unit the partition is 0 already and the action fails with "Nothing to
    resume, upgrade stack unset". *)
Theorem resume_after_pre_upgrade_check (w w' : World) :
  pre_upgrade_check w = (Returns tt, w') ->
  faults_of w' = [] ->
  (2 <= planned_units w ->
   partition_of (final _on_resume_upgrade w') = planned_units w - 2 /\
   results (event (final _on_resume_upgrade w')) =
     Some [("message",
            "Upgrade will resume on unit " +:+ str_int (planned_units w - 2))]) /\
  (planned_units w < 2 ->
   partition_of (final _on_resume_upgrade w') = planned_units w - 1 /\
   failed (event (final _on_resume_upgrade w')) =
     Some "Nothing to resume, upgrade stack unset").
Proof.
  intros Hrun Hfaults.
  pose proof (pre_upgrade_check_returns_partition w w' Hrun) as Hpart.
  destruct (resume_answered w' Hfaults)
    as [_ [(Hlt & Hp & Hr & _)|(Hle & Hp & _ & Hf)]].
  - split; [intros _|intros; lia].
    rewrite Hp, Hr, Hpart.
    by replace (planned_units w - 1 - 1) with (planned_units w - 2) by lia.
  - split; [intros; lia|intros _]. by rewrite Hp, Hf, Hpart.
Qed.

(** The check and the action on [primary_highest], five units. *)
Lemma resume_after_pre_upgrade_check_witness :
  partition_of
    (final _on_resume_upgrade (final pre_upgrade_check primary_highest)) = 3.
Proof.
  destruct (resume_after_pre_upgrade_check primary_highest
              (final pre_upgrade_check primary_highest) eq_refl eq_refl)
    as [H _].
  destruct H as [H _].
  - simpl. lia.
  - exact H.
Defined.

(** X15: [_set_min_ordinal_sync_standbys] touches one key of one bag: the
    bag of the unit and every key of the application bag other than
    "min-ordinal-sync-standbys" are as they were, and so are the event, the
    log and the configuration. *)
Theorem set_min_ordinal_touches_one_key (w : World) :
  unit_data <$> peer_relation (final _set_min_ordinal_sync_standbys w) =
    unit_data <$> peer_relation w /\
  (forall k : string, k ≠ "min-ordinal-sync-standbys" ->
     peer_relation (final _set_min_ordinal_sync_standbys w)
       ≫= (fun r => app_data r !! k) =
     peer_relation w ≫= (fun r => app_data r !! k)) /\
  event (final _set_min_ordinal_sync_standbys w) = event w /\
  log (final _set_min_ordinal_sync_standbys w) = log w /\
  config_updates (final _set_min_ordinal_sync_standbys w) = config_updates w.
Proof.
  run. branches; tidy.
  all: repeat split; try done.
  all: repeat match goal with
              | H : peer_relation _ = _ |- _ => rewrite H
              end; simpl; try done.
  all: intros k Hk; by rewrite lookup_insert_ne.
Qed.

(** The leader of [primary_middle], whose peer relation records a state. *)
Lemma set_min_ordinal_touches_one_key_witness :
  unit_state (final _set_min_ordinal_sync_standbys primary_middle) = Some "idle" /\
  peer_relation (final _set_min_ordinal_sync_standbys primary_middle)
    ≫= (fun r => app_data r !! "other") = None.
Proof.
  destruct (set_min_ordinal_touches_one_key primary_middle) as (Hunit & Hkeys & _).
  split.
  - unfold unit_state.
    destruct (peer_relation (final _set_min_ordinal_sync_standbys primary_middle))
      as [r|]; [|discriminate Hunit].
    injection Hunit as Hunit. simpl. rewrite Hunit. reflexivity.
  - rewrite (Hkeys "other"); [reflexivity|discriminate].
Defined.

(** X16: the refresh of the hint is idempotent: when the first read of the
    partition is answered, a second refresh right after the first leaves
    the peer relation as the first left it, whether its own read is
    answered or refused. *)
Theorem set_min_ordinal_twice (w : World) :
  request_fails 0 w = false ->
  peer_relation
    (final _set_min_ordinal_sync_standbys
       (final _set_min_ordinal_sync_standbys w)) =
  peer_relation (final _set_min_ordinal_sync_standbys w).
Proof.
  intros Hread. run. branches; tidy; try done.
  all: simplify_eq; simpl in *; try done.
  all: unfold update_app_data; simpl; by rewrite insert_insert_eq.
Qed.

(** The leader of [primary_middle]. *)
Lemma set_min_ordinal_twice_witness :
  min_ordinal_sync_standbys
    (final _set_min_ordinal_sync_standbys
       (final _set_min_ordinal_sync_standbys primary_middle)) = Some "0".
Proof.
  unfold min_ordinal_sync_standbys.
  rewrite (set_min_ordinal_twice primary_middle).
  - reflexivity.
  - reflexivity.
Defined.

(** ** [is_no_sync_member] *)

Example int_1 : int_of_str " -1_000 " = Some (-1000). Proof. reflexivity. Qed.
Example int_2 : int_of_str "1__0" = None. Proof. reflexivity. Qed.
Example int_3 : int_of_str "" = None. Proof. reflexivity. Qed.
Example int_4 : int_of_str "+7" = Some 7. Proof. reflexivity. Qed.
Example int_5 : int_of_str "- 7" = None. Proof. reflexivity. Qed.
Example int_6 : int_of_str "007" = Some 7. Proof. reflexivity. Qed.
Example int_7 : int_of_str "7_" = None. Proof. reflexivity. Qed.
Example split_1 : split "/" "a/b/c" = ["a"; "b"; "c"]. Proof. reflexivity. Qed.
Example split_2 : split "/" "" = [""]. Proof. reflexivity. Qed.
Example split_3 : split "/" "/" = [""; ""]. Proof. reflexivity. Qed.

Lemma digit_pretty_N_char (m : N) :
  (m < 10)%N -> digit (pretty_N_char m) = Some m.
Proof.
  intros Hm.
  assert (m = 0 ∨ m = 1 ∨ m = 2 ∨ m = 3 ∨ m = 4 ∨ m = 5 ∨ m = 6 ∨ m = 7
          ∨ m = 8 ∨ m = 9)%N as H by lia.
  repeat destruct H as [->|H]; try subst m; reflexivity.
Qed.

Lemma pretty_N_char_plain (m : N) :
  pretty_N_char m ≠ "/"%char /\ pretty_N_char m ≠ "-"%char /\
  pretty_N_char m ≠ "+"%char /\ is_space (pretty_N_char m) = false.
Proof. unfold pretty_N_char. repeat case_match; repeat split; done. Qed.

Lemma int_digits_pretty_N_go (x : N) (s : string) (b : bool) :
  (0 < x)%N ->
  int_digits 0 b (pretty_N_go x s) = int_digits x true s.
Proof.
  revert s b. induction (N.lt_wf_0 x) as [x _ IH]; intros s b Hx.
  rewrite pretty_N_go_step by done.
  assert (Hlt : (x `mod` 10 < 10)%N) by (by apply N.mod_lt).
  assert (Hdigit := digit_pretty_N_char (x `mod` 10)%N Hlt).
  destruct (N.eq_0_gt_0_cases (x `div` 10)) as [Hq|Hq].
  - rewrite Hq, pretty_N_go_0. simpl. rewrite Hdigit.
    f_equal. rewrite (N.div_mod x 10) at 2 by done. lia.
  - rewrite IH by (try done; apply N.div_lt; lia).
    simpl. rewrite Hdigit. f_equal.
    rewrite (N.div_mod x 10) at 3 by done. lia.
Qed.

Lemma pretty_N_go_head (x : N) (s : string) :
  (0 < x)%N ->
  exists m rest, pretty_N_go x s = String (pretty_N_char m) rest.
Proof.
  revert s. induction (N.lt_wf_0 x) as [x _ IH]; intros s Hx.
  rewrite pretty_N_go_step by done.
  destruct (N.eq_0_gt_0_cases (x `div` 10)) as [Hq|Hq].
  - rewrite Hq, pretty_N_go_0. eauto.
  - apply IH; [apply N.div_lt; lia|done].
Qed.

Lemma int_of_str_plain (c : ascii) (rest : string) :
  c ≠ "-"%char -> c ≠ "+"%char -> is_space c = false ->
  int_of_str (String c rest) = Z.of_N <$> int_digits 0 false (String c rest).
Proof.
  intros Hminus Hplus Hspace. unfold int_of_str. simpl skip_spaces.
  rewrite Hspace.
  destruct c as [[] [] [] [] [] [] [] []]; try done.
Qed.

Lemma int_of_str_pretty_pos (p : positive) :
  int_of_str (pretty (N.pos p)) = Some (Z.pos p).
Proof.
  unfold pretty, pretty_N. rewrite decide_False by done.
  destruct (pretty_N_go_head (N.pos p) "") as (m & rest & Hhead); [lia|].
  destruct (pretty_N_char_plain m) as (_ & Hminus & Hplus & Hspace).
  rewrite Hhead, int_of_str_plain by done. rewrite <- Hhead.
  rewrite int_digits_pretty_N_go by lia. reflexivity.
Qed.

Lemma int_digits_pretty_pos (p : positive) (b : bool) :
  int_digits 0 b (pretty (N.pos p)) = Some (N.pos p).
Proof.
  unfold pretty, pretty_N. rewrite decide_False by done.
  by rewrite int_digits_pretty_N_go by lia.
Qed.

Lemma int_of_str_minus (s : string) :
  int_of_str (String "-" s) = Z.opp <$> (Z.of_N <$> int_digits 0 false s).
Proof. reflexivity. Qed.

Lemma int_of_str_str_int (z : Z) : int_of_str (str_int z) = Some z.
Proof.
  destruct z as [|p|p]; [reflexivity|apply int_of_str_pretty_pos|].
  change (str_int (Z.neg p)) with (String "-" (pretty (N.pos p))).
  by rewrite int_of_str_minus, int_digits_pretty_pos.
Qed.

Lemma free_of_pretty_N_go (x : N) (s : string) :
  free_of "/" (pretty_N_go x s) = free_of "/" s.
Proof.
  revert s. induction (N.lt_wf_0 x) as [x _ IH]; intros s.
  assert (x = 0 ∨ 0 < x)%N as [->|Hx] by lia; [by rewrite pretty_N_go_0|].
  rewrite pretty_N_go_step by done.
  rewrite IH by (apply N.div_lt; lia). simpl.
  destruct (pretty_N_char_plain (x mod 10)) as (Hslash & _).
  by rewrite bool_decide_false.
Qed.

Lemma free_of_str_int (z : Z) : free_of "/" (str_int z) = true.
Proof.
  destruct z as [|p|p]; [reflexivity| |].
  - unfold str_int, pretty, pretty_Z, pretty, pretty_positive, pretty, pretty_N.
    rewrite decide_False by done. by rewrite free_of_pretty_N_go.
  - unfold str_int, pretty, pretty_Z.
    change ("-" +:+ pretty p) with (String "-" (pretty (N.pos p))).
    simpl. unfold pretty, pretty_N.
    rewrite decide_False by done. by rewrite free_of_pretty_N_go.
Qed.

Lemma split_free (sep : ascii) (s : string) :
  free_of sep s = true -> split sep s = [s].
Proof.
  induction s as [|c s IH]; simpl; [done|].
  case_bool_decide; simpl; [done|]. intros Hfree. by rewrite IH.
Qed.

Lemma split_append (sep : ascii) (a b : string) :
  free_of sep a = true ->
  split sep (a +:+ String sep b) = a :: split sep b.
Proof.
  induction a as [|c a IH]; simpl.
  - by rewrite bool_decide_true.
  - case_bool_decide; simpl; [done|]. intros Hfree. by rewrite IH.
Qed.

(** The unit [app/k] reads its ordinal back from its name. *)
Lemma ordinal_of_unit_name (app : string) (k : Z) :
  free_of "/" app = true ->
  split "/" (app +:+ "/" +:+ str_int k) !! 1%nat = Some (str_int k).
Proof.
  intros Hfree.
  change (app +:+ "/" +:+ str_int k) with (app +:+ String "/" (str_int k)).
  rewrite split_append by done.
  by rewrite split_free by apply free_of_str_int.
Qed.

(** What the unit [app/k] answers when the hint stored is the text of
    [hint], or when no hint is stored. *)
Lemma is_no_sync_member_reads (w : World) (r : Relation) (k hint : Z) :
  peer_relation w = Some r ->
  read_hint r = Some hint ->
  free_of "/" (app_name w) = true ->
  unit_name w = app_name w +:+ "/" +:+ str_int k ->
  is_no_sync_member w = inr (k <? hint)%Z.
Proof.
  intros Hrel Hhint Hfree Hname. unfold is_no_sync_member.
  rewrite Hrel, Hhint, Hname, ordinal_of_unit_name by done.
  by rewrite int_of_str_str_int.
Qed.




(** X18: as long as no hint has been written to the application bag, no
    unit [app/k] with [k >= 0] is excluded from synchronous standby: the
    missing key reads as 0. *)
Theorem is_no_sync_member_without_hint (w : World) (r : Relation) (k : Z) :
  peer_relation w = Some r ->
  app_data r !! "min-ordinal-sync-standbys" = None ->
  free_of "/" (app_name w) = true ->
  unit_name w = app_name w +:+ "/" +:+ str_int k ->
  0 <= k ->
  is_no_sync_member w = inr false.
Proof.
  intros Hrel Hnone Hfree Hname Hk.
  rewrite (is_no_sync_member_reads w r k 0 Hrel); try done.
  - f_equal. apply Z.ltb_ge. lia.
  - unfold read_hint. by rewrite Hnone.
Qed.

(** Unit 0 of five before any refresh. *)
Lemma is_no_sync_member_without_hint_witness :
  is_no_sync_member (member 0 false) = inr false.
Proof.
  apply (is_no_sync_member_without_hint (member 0 false)
           (relation_in_state "idle") 0).
  - reflexivity.
  - reflexivity.
  - reflexivity.
  - reflexivity.
  - lia.
Defined.

(** X19: [is_no_sync_member] raises [AttributeError] when there is no peer
    relation, and, when the hint is missing or is the text of a number,
    [IndexError] on a unit name that contains no "/". *)
Theorem is_no_sync_member_raises (w : World) :
  (peer_relation w = None ->
   is_no_sync_member w = inl (Raised AttributeError)) /\
  (forall r,
     peer_relation w = Some r ->
     app_data r !! "min-ordinal-sync-standbys" = None \/
     (exists hint,
        app_data r !! "min-ordinal-sync-standbys" = Some (str_int hint)) ->
     free_of "/" (unit_name w) = true ->
     is_no_sync_member w = inl IndexError).
Proof.
  split.
  - intros Hrel. unfold is_no_sync_member. by rewrite Hrel.
  - intros r Hrel Hhint Hfree. unfold is_no_sync_member, read_hint.
    rewrite Hrel, (split_free _ _ Hfree).
    destruct Hhint as [->|[hint ->]]; [done|].
    by rewrite int_of_str_str_int.
Qed.

(** A unit without peer relation, and a unit named without ordinal. *)
Lemma is_no_sync_member_raises_witness :
  is_no_sync_member (with_peer_relation None (member 0 false)) =
    inl (Raised AttributeError) /\
  is_no_sync_member
    (deployment "postgresql-k8s" 5 false "postgresql-k8s/4" [] 3 []
       (Some (relation_in_state "idle"))) = inl IndexError.
Proof.
  split.
  - destruct (is_no_sync_member_raises (with_peer_relation None (member 0 false)))
      as [H _].
    apply H. reflexivity.
  - destruct (is_no_sync_member_raises
                (deployment "postgresql-k8s" 5 false "postgresql-k8s/4" [] 3 []
                   (Some (relation_in_state "idle")))) as [_ H].
    apply (H (relation_in_state "idle")).
    + reflexivity.
    + left. reflexivity.
    + reflexivity.
Defined.

(** ** Completion of pebble-ready *)

(** The handler of the source is [pebble_ready_completing] closed with the
    write of the state. *)
Lemma pebble_ready_completing_source :
  _postgresql_on_pebble_ready = pebble_ready_completing set_unit_completed.
Proof. reflexivity. Qed.

(** Where pebble-ready does not reach its last line, what stands on that
    line does not matter. *)
Lemma pebble_ready_completing_elsewhere (c1 c2 : M unit) (w : World) :
  ~ completes w ->
  pebble_ready_completing c1 w = pebble_ready_completing c2 w.
Proof.
  intros Hnot. unfold pebble_ready_completing. run. branches; tidy; try done.
  all: exfalso; apply Hnot; split; [|split; [done|]].
  all: repeat match goal with
              | H : peer_relation _ = Some _ |- _ => rewrite H
              end; simpl; try by apply dec_stable.
  all: intros (? & ? & ? & ?); done.
Qed.

(** C10, as stated, fails once completion fires the handler of the finished
    unit, as the spec has it: unit 1 of three, the synchronous standby of
    the primary unit 0, receives pebble-ready in state "upgrading" with the
    partition at 1; it is marked completed and the partition is lowered
    to 0. *)
Lemma workload_ready_completion_lowers_partition :
  ~ (forall w : World,
       partition_of (final on_workload_ready w) = partition_of w).
Proof.
  intros Hclaim. specialize (Hclaim completing).
  vm_compute in Hclaim. discriminate Hclaim.
Qed.

(** C10, amended: pebble-ready makes no write of the partition of its own.
    Where it does not reach its last line (no peer relation, a state other
    than "upgrading", Patroni not started, the refresh of the hint followed
    by the deferral) it does what the handler of the source does, the
    partition is the one found and no [Patch] has been asked for.  Where it
    marks the unit completed, the StatefulSet is left as the handler of the
    finished unit leaves it.  In every case the partition is the one found
    or one lower and not negative. *)
Theorem workload_ready_partition (w : World) :
  (~ completes w ->
   on_workload_ready w = _postgresql_on_pebble_ready w /\
   partition_of (final on_workload_ready w) = partition_of w /\
   exists rs,
     requests_of (final on_workload_ready w) = (requests_of w ++ rs)%list /\
     forall p, Patch p ∉ rs) /\
  (completes w ->
   stateful_set (final on_workload_ready w) =
     stateful_set (final _on_upgrade_finished w)) /\
  (partition_of (final on_workload_ready w) = partition_of w \/
   (partition_of (final on_workload_ready w) = partition_of w - 1 /\
    0 <= partition_of w - 1)).
Proof.
  split; [|split].
  - intros Hnot.
    assert (Hsame : on_workload_ready w = _postgresql_on_pebble_ready w).
    { apply (pebble_ready_completing_elsewhere _ _ w Hnot). }
    split; [exact Hsame|]. unfold final. rewrite Hsame.
    apply pebble_ready_own_requests.
  - intros (Hstate & Hstarted & Hnot). run. branches; tidy; try done.
    all: try (exfalso; solve [close]).
    all: try (exfalso; apply Hnot; repeat split; solve [close]).
  - run. branches; tidy; auto.
Qed.

(** The unit of [standby_elsewhere], which defers, and the unit of
    [completing], which is marked completed. *)
Lemma workload_ready_partition_witness :
  partition_of (final on_workload_ready standby_elsewhere) = 2 /\
  requests_of (final on_workload_ready completing) = [Get; Patch 0].
Proof.
  split.
  - destruct (workload_ready_partition standby_elsewhere) as (H & _).
    destruct H as (_ & Hp & _); [|exact Hp].
    intros (_ & _ & Hnot). apply Hnot.
    split; [vm_compute; discriminate|]. split; [vm_compute; discriminate|].
    split; [simpl; lia|]. vm_compute. discriminate.
  - destruct (workload_ready_partition completing) as (_ & H & _).
    unfold requests_of. rewrite H; [reflexivity|].
    split; [reflexivity|]. split; [reflexivity|].
    intros (_ & Hprim & _). apply Hprim. reflexivity.
Defined.
